(** * Recycling Sorter: the game logic of [pr.py], embedded and verified.

    The development follows the Python source function by function.
    Python [int]s are [Z].  Python [float]s (positions, velocities, timers)
    are idealised as exact rationals [Q], kept in lowest terms: the
    statements below depend only on assignments and comparisons of these
    numbers, never on rounding.
    Mutation of [self] is explicit state passing on the record [Game.t];
    the high-score file and the sound device are part of that record, with a
    log of the effects performed on them. *)

From Stdlib Require Import ZArith QArith Bool List String Lia.
From Stdlib Require Import DecimalString.
Import ListNotations.

Local Open Scope Z_scope.

(** ** Numbers *)

(** Python's [int(x)] on a number: truncation towards zero. *)
Definition int_of (q : Q) : Z := Z.quot (Qnum q) (Zpos (Qden q)).

(** Sum, difference and product of numbers, kept in lowest terms so that
    the terms stay small along a session. *)
Definition num_add (a b : Q) : Q := Qred (a + b).
Definition num_sub (a b : Q) : Q := Qred (a - b).
Definition num_mul (a b : Q) : Q := Qred (a * b).

Declare Scope num_scope.
Delimit Scope num_scope with num.
Infix "+" := num_add : num_scope.
Infix "-" := num_sub : num_scope.
Infix "*" := num_mul : num_scope.

(** [a < b] on numbers, as a boolean. *)
Definition Qltb (a b : Q) : bool := negb (Qle_bool b a).

(** [str(n)] for an integer, as used by f-strings. *)
Definition str_of_Z (n : Z) : string := NilZero.string_of_int (Z.to_int n).

Definition Color : Type := (Z * Z * Z)%type.

Definition Color_eqb (a b : Color) : bool :=
  let '(r1, g1, b1) := a in
  let '(r2, g2, b2) := b in
  (r1 =? r2) && (g1 =? g2) && (b1 =? b2).

(** ** Config *)

Definition SCREEN_W : Z := 1000.
Definition SCREEN_H : Z := 650.
Definition FPS : Z := 60.

Definition C_PAPER : Color := (59, 130, 246).
Definition C_PLASTIC : Color := (239, 68, 68).
Definition C_METAL : Color := (161, 161, 170).
Definition C_ORGANIC : Color := (34, 197, 94).
Definition C_EWASTE : Color := (147, 51, 234).

Definition BINS : list (string * Color) :=
  [ ("Paper", C_PAPER);
    ("Plastic", C_PLASTIC);
    ("Metal", C_METAL);
    ("Organic", C_ORGANIC);
    ("E-Waste", C_EWASTE) ]%string.

(** The dict [ITEMS], in insertion order: name -> (category, tip). *)
Definition ITEMS : list (string * (string * string)) :=
  [ ("Newspaper", ("Paper", "Paper goes in blue bin. Keep it dry."));
    ("Cardboard", ("Paper", "Flatten boxes to save space."));
    ("Notebook", ("Paper", "Remove plastic spirals when possible."));
    ("Magazine", ("Paper", "Glossy paper can be recycled in many cities."));
    ("Paper Cup", ("Paper", "If wax-lined, check local rules."));
    ("Bottle", ("Plastic", "Empty and crush to save space."));
    ("Food Box", ("Plastic", "Rinse to avoid contamination."));
    ("Straw", ("Plastic", "Hard to recycle; avoid single-use."));
    ("Milk Jug", ("Plastic", "Caps on or off depends on locale."));
    ("Toothbrush", ("Plastic", "Consider bamboo alternatives."));
    ("Can", ("Metal", "Aluminum recycles endlessly!"));
    ("Tin Can", ("Metal", "Rinse before recycling."));
    ("Soda Can", ("Metal", "Crush cans to save space."));
    ("Foil", ("Metal", "Clean foil can be recycled if balled up."));
    ("Steel Lid", ("Metal", "Attach to can if safe."));
    ("Banana Peel", ("Organic", "Great for compost."));
    ("Apple Core", ("Organic", "Compost to enrich soil."));
    ("Tea Bag", ("Organic", "Check if bag has plastic."));
    ("Leaves", ("Organic", "Compost yard waste."));
    ("Egg Shells", ("Organic", "Add to compost for calcium."));
    ("Phone", ("E-Waste", "Take to e-waste drop-off."));
    ("Battery", ("E-Waste", "Never bin batteries!"));
    ("Charger", ("E-Waste", "E-waste centers recover metals."));
    ("Earphones", ("E-Waste", "Recycle wires/e-waste properly."));
    ("Keyboard", ("E-Waste", "Contains valuable components.")) ]%string.

(** One row of [LEVELS]:
    (fall_speed, spawn_interval_frames, level_duration_seconds, target_score). *)
Definition LevelRow : Type := (Q * Z * Q * Z)%type.

Definition LEVELS : list LevelRow :=
  [ (2.4%Q, 75, 50%Q, 200);
    (3.0%Q, 65, 55%Q, 450);
    (3.6%Q, 58, 60%Q, 800);
    (4.2%Q, 52, 60%Q, 1200);
    (4.8%Q, 46, 65%Q, 1700) ].

(** [LEVELS[i]].  Python raises [IndexError] out of range; every state the
    game reaches has its level in range (lemma [reachable_round_ok]), and
    the default row is never consulted there. *)
Definition LEVELS_at (i : nat) : LevelRow :=
  nth i LEVELS (0%Q, 0, 0%Q, 0).

Definition row_fall_speed (r : LevelRow) : Q := let '(a, _, _, _) := r in a.
Definition row_spawn_interval (r : LevelRow) : Z := let '(_, b, _, _) := r in b.
Definition row_duration (r : LevelRow) : Q := let '(_, _, c, _) := r in c.
Definition row_target (r : LevelRow) : Z := let '(_, _, _, d) := r in d.

Definition LIVES_START : Z := 3.

(** ** pygame.Rect, as far as the game uses it *)

Module Rect.

Record t : Type := mk { x : Z; y : Z; w : Z; h : Z }.

(** [rect.collidepoint(pos)]: left and top edges inside, right and bottom
    edges outside. *)
Definition collidepoint (r : t) (pos : Z * Z) : bool :=
  let '(px, py) := pos in
  (x r <=? px) && (px <? x r + w r) && (y r <=? py) && (py <? y r + h r).

(** [a.colliderect(b)]: the two rectangles share an area that is not
    empty; a rectangle of zero width or height collides with nothing. *)
Definition colliderect (a b : t) : bool :=
  if (w a =? 0) || (h a =? 0) || (w b =? 0) || (h b =? 0) then false
  else
    (Z.min (x a) (x a + w a) <? Z.max (x b) (x b + w b)) &&
    (Z.min (y a) (y a + h a) <? Z.max (y b) (y b + h b)) &&
    (Z.max (x a) (x a + w a) >? Z.min (x b) (x b + w b)) &&
    (Z.max (y a) (y a + h a) >? Z.min (y b) (y b + h b)).

End Rect.

(** ** Falling items *)

Module Item.

Record t : Type := mk {
  name : string;
  category : string;
  tip : string;
  x : Q;
  y : Q;
  vx : Q;
  vy : Q;
  color : Color;
  w : Z;
  h : Z;
  dragging : bool;
  grabbed_dx : Q;
  grabbed_dy : Q;
  rot : Q;
  rot_speed : Q
}.

Definition set_x (v : Q) (s : t) : t :=
  {| name := name s; category := category s; tip := tip s; x := v; y := y s; vx := vx s; vy := vy s; color := color s; w := w s; h := h s; dragging := dragging s; grabbed_dx := grabbed_dx s; grabbed_dy := grabbed_dy s; rot := rot s; rot_speed := rot_speed s |}.

Definition set_y (v : Q) (s : t) : t :=
  {| name := name s; category := category s; tip := tip s; x := x s; y := v; vx := vx s; vy := vy s; color := color s; w := w s; h := h s; dragging := dragging s; grabbed_dx := grabbed_dx s; grabbed_dy := grabbed_dy s; rot := rot s; rot_speed := rot_speed s |}.

Definition set_vx (v : Q) (s : t) : t :=
  {| name := name s; category := category s; tip := tip s; x := x s; y := y s; vx := v; vy := vy s; color := color s; w := w s; h := h s; dragging := dragging s; grabbed_dx := grabbed_dx s; grabbed_dy := grabbed_dy s; rot := rot s; rot_speed := rot_speed s |}.

Definition set_vy (v : Q) (s : t) : t :=
  {| name := name s; category := category s; tip := tip s; x := x s; y := y s; vx := vx s; vy := v; color := color s; w := w s; h := h s; dragging := dragging s; grabbed_dx := grabbed_dx s; grabbed_dy := grabbed_dy s; rot := rot s; rot_speed := rot_speed s |}.

Definition set_dragging (v : bool) (s : t) : t :=
  {| name := name s; category := category s; tip := tip s; x := x s; y := y s; vx := vx s; vy := vy s; color := color s; w := w s; h := h s; dragging := v; grabbed_dx := grabbed_dx s; grabbed_dy := grabbed_dy s; rot := rot s; rot_speed := rot_speed s |}.

Definition set_grabbed_dx (v : Q) (s : t) : t :=
  {| name := name s; category := category s; tip := tip s; x := x s; y := y s; vx := vx s; vy := vy s; color := color s; w := w s; h := h s; dragging := dragging s; grabbed_dx := v; grabbed_dy := grabbed_dy s; rot := rot s; rot_speed := rot_speed s |}.

Definition set_grabbed_dy (v : Q) (s : t) : t :=
  {| name := name s; category := category s; tip := tip s; x := x s; y := y s; vx := vx s; vy := vy s; color := color s; w := w s; h := h s; dragging := dragging s; grabbed_dx := grabbed_dx s; grabbed_dy := v; rot := rot s; rot_speed := rot_speed s |}.

Definition set_rot (v : Q) (s : t) : t :=
  {| name := name s; category := category s; tip := tip s; x := x s; y := y s; vx := vx s; vy := vy s; color := color s; w := w s; h := h s; dragging := dragging s; grabbed_dx := grabbed_dx s; grabbed_dy := grabbed_dy s; rot := v; rot_speed := rot_speed s |}.

(** The [__eq__] that [@dataclass] generates: field by field, numbers
    compared by value.  [list.remove] relies on it. *)
Definition eqb (a b : t) : bool :=
  String.eqb (name a) (name b) && String.eqb (category a) (category b) &&
  String.eqb (tip a) (tip b) &&
  Qeq_bool (x a) (x b) && Qeq_bool (y a) (y b) &&
  Qeq_bool (vx a) (vx b) && Qeq_bool (vy a) (vy b) &&
  Color_eqb (color a) (color b) && (w a =? w b) && (h a =? h b) &&
  Bool.eqb (dragging a) (dragging b) &&
  Qeq_bool (grabbed_dx a) (grabbed_dx b) && Qeq_bool (grabbed_dy a) (grabbed_dy b) &&
  Qeq_bool (rot a) (rot b) && Qeq_bool (rot_speed a) (rot_speed b).

(** [Item.rect]: [pygame.Rect(int(self.x), int(self.y), self.w, self.h)]. *)
Definition rect (it : t) : Rect.t :=
  Rect.mk (int_of (x it)) (int_of (y it)) (w it) (h it).

(** [Item.update(gravity)]. *)
Definition update (gravity : Q) (it : t) : t :=
  if negb (dragging it) then
    let it := set_vy (vy it + gravity * 0.02%Q)%num it in
    let it := set_x (x it + vx it)%num it in
    let it := set_y (y it + vy it)%num it in
    set_rot (rot it + rot_speed it)%num it
  else it.

End Item.

(** ** Bins *)

Module Bin.

Record t : Type := mk { label : string; color : Color; rect : Rect.t }.

End Bin.

(** ** The world outside the game: the high-score file and the speaker *)

(** What [load_hiscore] finds on disk, up to what it can tell apart:
    no file; a file on which [open], [json.load], [.get] or [int] raises;
    a file whose JSON object gives [int(data.get("hiscore", 0)) = v]. *)
Inductive HiscoreFile : Type :=
| Absent
| Corrupt
| Holds (v : Z).

(** A sound made by [_gen_beep(freq)]. *)
Inductive Sound : Type := Beep (freq : Z).

(** Effects on the outside world, logged oldest first. *)
Inductive Effect : Type :=
| LoadedHiscore
| SavedHiscore (score : Z)
| PlayedSound (snd : Sound).

(** [load_hiscore()]: the value read; every exception gives 0. *)
Definition load_hiscore (f : HiscoreFile) : Z :=
  match f with
  | Holds v => v
  | Absent | Corrupt => 0
  end.

(** [save_hiscore(score)]: the file afterwards.  When the file cannot be
    opened for writing the exception is swallowed and nothing changes. *)
Definition save_hiscore (writable : bool) (score : Z) (f : HiscoreFile) : HiscoreFile :=
  if writable then Holds score else f.

Definition is_load (e : Effect) : bool :=
  match e with LoadedHiscore => true | _ => false end.

(** ** The game *)

Inductive State : Type := MENU | PLAYING | PAUSE | GAMEOVER.

Definition State_eqb (a b : State) : bool :=
  match a, b with
  | MENU, MENU | PLAYING, PLAYING | PAUSE, PAUSE | GAMEOVER, GAMEOVER => true
  | _, _ => false
  end.

Module Game.

Record t : Type := mk {
  items : list Item.t;
  score : Z;
  hiscore : Z;
  lives : Z;
  level : nat;
  level_time_left : Q;
  level_target : Z;
  frames_since_spawn : Z;
  streak : Z;
  tip_message : string;
  tip_timer : Q;
  state : State;
  bins : list Bin.t;
  muted : bool;
  snd_correct : option Sound;
  snd_wrong : option Sound;
  snd_levelup : option Sound;
  (* the world *)
  hiscore_file : HiscoreFile;
  fs_writable : bool;
  log : list Effect
}.

Definition set_items (v : list Item.t) (s : t) : t :=
  {| items := v; score := score s; hiscore := hiscore s; lives := lives s; level := level s; level_time_left := level_time_left s; level_target := level_target s; frames_since_spawn := frames_since_spawn s; streak := streak s; tip_message := tip_message s; tip_timer := tip_timer s; state := state s; bins := bins s; muted := muted s; snd_correct := snd_correct s; snd_wrong := snd_wrong s; snd_levelup := snd_levelup s; hiscore_file := hiscore_file s; fs_writable := fs_writable s; log := log s |}.

Definition set_score (v : Z) (s : t) : t :=
  {| items := items s; score := v; hiscore := hiscore s; lives := lives s; level := level s; level_time_left := level_time_left s; level_target := level_target s; frames_since_spawn := frames_since_spawn s; streak := streak s; tip_message := tip_message s; tip_timer := tip_timer s; state := state s; bins := bins s; muted := muted s; snd_correct := snd_correct s; snd_wrong := snd_wrong s; snd_levelup := snd_levelup s; hiscore_file := hiscore_file s; fs_writable := fs_writable s; log := log s |}.

Definition set_hiscore (v : Z) (s : t) : t :=
  {| items := items s; score := score s; hiscore := v; lives := lives s; level := level s; level_time_left := level_time_left s; level_target := level_target s; frames_since_spawn := frames_since_spawn s; streak := streak s; tip_message := tip_message s; tip_timer := tip_timer s; state := state s; bins := bins s; muted := muted s; snd_correct := snd_correct s; snd_wrong := snd_wrong s; snd_levelup := snd_levelup s; hiscore_file := hiscore_file s; fs_writable := fs_writable s; log := log s |}.

Definition set_lives (v : Z) (s : t) : t :=
  {| items := items s; score := score s; hiscore := hiscore s; lives := v; level := level s; level_time_left := level_time_left s; level_target := level_target s; frames_since_spawn := frames_since_spawn s; streak := streak s; tip_message := tip_message s; tip_timer := tip_timer s; state := state s; bins := bins s; muted := muted s; snd_correct := snd_correct s; snd_wrong := snd_wrong s; snd_levelup := snd_levelup s; hiscore_file := hiscore_file s; fs_writable := fs_writable s; log := log s |}.

Definition set_level (v : nat) (s : t) : t :=
  {| items := items s; score := score s; hiscore := hiscore s; lives := lives s; level := v; level_time_left := level_time_left s; level_target := level_target s; frames_since_spawn := frames_since_spawn s; streak := streak s; tip_message := tip_message s; tip_timer := tip_timer s; state := state s; bins := bins s; muted := muted s; snd_correct := snd_correct s; snd_wrong := snd_wrong s; snd_levelup := snd_levelup s; hiscore_file := hiscore_file s; fs_writable := fs_writable s; log := log s |}.

Definition set_level_time_left (v : Q) (s : t) : t :=
  {| items := items s; score := score s; hiscore := hiscore s; lives := lives s; level := level s; level_time_left := v; level_target := level_target s; frames_since_spawn := frames_since_spawn s; streak := streak s; tip_message := tip_message s; tip_timer := tip_timer s; state := state s; bins := bins s; muted := muted s; snd_correct := snd_correct s; snd_wrong := snd_wrong s; snd_levelup := snd_levelup s; hiscore_file := hiscore_file s; fs_writable := fs_writable s; log := log s |}.

Definition set_level_target (v : Z) (s : t) : t :=
  {| items := items s; score := score s; hiscore := hiscore s; lives := lives s; level := level s; level_time_left := level_time_left s; level_target := v; frames_since_spawn := frames_since_spawn s; streak := streak s; tip_message := tip_message s; tip_timer := tip_timer s; state := state s; bins := bins s; muted := muted s; snd_correct := snd_correct s; snd_wrong := snd_wrong s; snd_levelup := snd_levelup s; hiscore_file := hiscore_file s; fs_writable := fs_writable s; log := log s |}.

Definition set_frames_since_spawn (v : Z) (s : t) : t :=
  {| items := items s; score := score s; hiscore := hiscore s; lives := lives s; level := level s; level_time_left := level_time_left s; level_target := level_target s; frames_since_spawn := v; streak := streak s; tip_message := tip_message s; tip_timer := tip_timer s; state := state s; bins := bins s; muted := muted s; snd_correct := snd_correct s; snd_wrong := snd_wrong s; snd_levelup := snd_levelup s; hiscore_file := hiscore_file s; fs_writable := fs_writable s; log := log s |}.

Definition set_streak (v : Z) (s : t) : t :=
  {| items := items s; score := score s; hiscore := hiscore s; lives := lives s; level := level s; level_time_left := level_time_left s; level_target := level_target s; frames_since_spawn := frames_since_spawn s; streak := v; tip_message := tip_message s; tip_timer := tip_timer s; state := state s; bins := bins s; muted := muted s; snd_correct := snd_correct s; snd_wrong := snd_wrong s; snd_levelup := snd_levelup s; hiscore_file := hiscore_file s; fs_writable := fs_writable s; log := log s |}.

Definition set_tip_message (v : string) (s : t) : t :=
  {| items := items s; score := score s; hiscore := hiscore s; lives := lives s; level := level s; level_time_left := level_time_left s; level_target := level_target s; frames_since_spawn := frames_since_spawn s; streak := streak s; tip_message := v; tip_timer := tip_timer s; state := state s; bins := bins s; muted := muted s; snd_correct := snd_correct s; snd_wrong := snd_wrong s; snd_levelup := snd_levelup s; hiscore_file := hiscore_file s; fs_writable := fs_writable s; log := log s |}.

Definition set_tip_timer (v : Q) (s : t) : t :=
  {| items := items s; score := score s; hiscore := hiscore s; lives := lives s; level := level s; level_time_left := level_time_left s; level_target := level_target s; frames_since_spawn := frames_since_spawn s; streak := streak s; tip_message := tip_message s; tip_timer := v; state := state s; bins := bins s; muted := muted s; snd_correct := snd_correct s; snd_wrong := snd_wrong s; snd_levelup := snd_levelup s; hiscore_file := hiscore_file s; fs_writable := fs_writable s; log := log s |}.

Definition set_state (v : State) (s : t) : t :=
  {| items := items s; score := score s; hiscore := hiscore s; lives := lives s; level := level s; level_time_left := level_time_left s; level_target := level_target s; frames_since_spawn := frames_since_spawn s; streak := streak s; tip_message := tip_message s; tip_timer := tip_timer s; state := v; bins := bins s; muted := muted s; snd_correct := snd_correct s; snd_wrong := snd_wrong s; snd_levelup := snd_levelup s; hiscore_file := hiscore_file s; fs_writable := fs_writable s; log := log s |}.

Definition set_bins (v : list Bin.t) (s : t) : t :=
  {| items := items s; score := score s; hiscore := hiscore s; lives := lives s; level := level s; level_time_left := level_time_left s; level_target := level_target s; frames_since_spawn := frames_since_spawn s; streak := streak s; tip_message := tip_message s; tip_timer := tip_timer s; state := state s; bins := v; muted := muted s; snd_correct := snd_correct s; snd_wrong := snd_wrong s; snd_levelup := snd_levelup s; hiscore_file := hiscore_file s; fs_writable := fs_writable s; log := log s |}.

Definition set_muted (v : bool) (s : t) : t :=
  {| items := items s; score := score s; hiscore := hiscore s; lives := lives s; level := level s; level_time_left := level_time_left s; level_target := level_target s; frames_since_spawn := frames_since_spawn s; streak := streak s; tip_message := tip_message s; tip_timer := tip_timer s; state := state s; bins := bins s; muted := v; snd_correct := snd_correct s; snd_wrong := snd_wrong s; snd_levelup := snd_levelup s; hiscore_file := hiscore_file s; fs_writable := fs_writable s; log := log s |}.

Definition set_hiscore_file (v : HiscoreFile) (s : t) : t :=
  {| items := items s; score := score s; hiscore := hiscore s; lives := lives s; level := level s; level_time_left := level_time_left s; level_target := level_target s; frames_since_spawn := frames_since_spawn s; streak := streak s; tip_message := tip_message s; tip_timer := tip_timer s; state := state s; bins := bins s; muted := muted s; snd_correct := snd_correct s; snd_wrong := snd_wrong s; snd_levelup := snd_levelup s; hiscore_file := v; fs_writable := fs_writable s; log := log s |}.

Definition set_log (v : list Effect) (s : t) : t :=
  {| items := items s; score := score s; hiscore := hiscore s; lives := lives s; level := level s; level_time_left := level_time_left s; level_target := level_target s; frames_since_spawn := frames_since_spawn s; streak := streak s; tip_message := tip_message s; tip_timer := tip_timer s; state := state s; bins := bins s; muted := muted s; snd_correct := snd_correct s; snd_wrong := snd_wrong s; snd_levelup := snd_levelup s; hiscore_file := hiscore_file s; fs_writable := fs_writable s; log := v |}.

(** [list.remove(it)] on the item list: drop the first element equal to
    [it].  Python raises [ValueError] when there is none; both call sites
    swallow it, which leaves the list as it was. *)
Fixpoint list_remove (it : Item.t) (l : list Item.t) : list Item.t :=
  match l with
  | [] => []
  | a :: l' => if Item.eqb a it then l' else a :: list_remove it l'
  end.

(** [_gen_beep(freq)]: [None] without a mixer or when synthesis fails. *)
Definition _gen_beep (mixer_available synth_ok : bool) (freq : Z) : option Sound :=
  if negb mixer_available then None
  else if synth_ok then Some (Beep freq) else None.

(** The bins that [reset] builds evenly across the bottom. *)
Definition build_bins : list Bin.t :=
  let margin := 20 in
  let n := Z.of_nat (List.length BINS) in
  let bin_w := (SCREEN_W - margin * (n + 1)) / n in
  let bin_h := 110 in
  let y := SCREEN_H - bin_h - 20 in
  map (fun '(i, (label, color)) =>
         let x := margin + Z.of_nat i * (bin_w + margin) in
         Bin.mk label color (Rect.mk x y bin_w bin_h))
      (combine (seq 0 (List.length BINS)) BINS).

(** [reset(full)].  The background surface it also builds is rendering
    only and is left out. *)
Definition reset (full : bool) (g : t) : t :=
  {| items := [];
     score := 0;
     hiscore := load_hiscore (hiscore_file g);
     lives := LIVES_START;
     level := 0;
     level_time_left := row_duration (LEVELS_at 0);
     level_target := row_target (LEVELS_at 0);
     frames_since_spawn := 0;
     streak := 0;
     tip_message := EmptyString;
     tip_timer := 0.0%Q;
     state := if full then MENU else PLAYING;
     bins := build_bins;
     muted := muted g;
     snd_correct := snd_correct g;
     snd_wrong := snd_wrong g;
     snd_levelup := snd_levelup g;
     hiscore_file := hiscore_file g;
     fs_writable := fs_writable g;
     log := log g ++ [LoadedHiscore] |}.

(** What the process finds when it starts. *)
Record Env : Type := mkEnv {
  mixer_available : bool;
  synth_ok : bool;
  disk : HiscoreFile;
  disk_writable : bool
}.

(** [Game.__init__]: sounds, [muted = False], then [reset(full=True)]. *)
Definition init (e : Env) : t :=
  reset true
    {| items := []; score := 0; hiscore := 0; lives := 0; level := 0;
       level_time_left := 0%Q; level_target := 0; frames_since_spawn := 0;
       streak := 0; tip_message := EmptyString; tip_timer := 0%Q; state := MENU;
       bins := [];
       muted := false;
       snd_correct := _gen_beep (mixer_available e) (synth_ok e) 800;
       snd_wrong := _gen_beep (mixer_available e) (synth_ok e) 200;
       snd_levelup := _gen_beep (mixer_available e) (synth_ok e) 1100;
       hiscore_file := disk e;
       fs_writable := disk_writable e;
       log := [] |}.

(** The random draws of one [spawn_item] call: the index picked by
    [random.choice], [randint(60, SCREEN_W - 160)], the two [uniform]
    velocities and the [uniform] of [rot_speed]'s default factory. *)
Record Rand : Type := mkRand {
  r_choice : nat;
  r_x : Z;
  r_vx : Q;
  r_vy : Q;
  r_rot_speed : Q
}.

Fixpoint dict_get {V : Type} (k : string) (d : list (string * V)) : option V :=
  match d with
  | [] => None
  | (k', v) :: d' => if String.eqb k k' then Some v else dict_get k d'
  end.

(** [spawn_item()].  Both dict lookups succeed on the fixed tables (a
    [KeyError] cannot happen); the defaults below are never used. *)
Definition spawn_item (r : Rand) (g : t) : t :=
  let name := nth (r_choice r mod List.length ITEMS) (map fst ITEMS) EmptyString in
  let '(category, tip) :=
    match dict_get name ITEMS with Some ct => ct | None => (EmptyString, EmptyString) end in
  let color :=
    match dict_get category
            [ ("Paper", C_PAPER); ("Plastic", C_PLASTIC); ("Metal", C_METAL);
              ("Organic", C_ORGANIC); ("E-Waste", C_EWASTE) ]%string with
    | Some c => c
    | None => (0, 0, 0)
    end in
  let x := inject_Z (r_x r) in
  let y := inject_Z (-50) in
  let vx := r_vx r in
  let vy := r_vy r in
  set_items
    (items g ++ [Item.mk name category tip x y vx vy color 120 40 false 0.0%Q 0.0%Q 0.0%Q
                         (r_rot_speed r)])
    g.

(** [play_sfx(snd)]. *)
Definition play_sfx (snd : option Sound) (g : t) : t :=
  match snd with
  | None => g
  | Some s => if muted g then g else set_log (log g ++ [PlayedSound s]) g
  end.

(** [game_over()]. *)
Definition game_over (g : t) : t :=
  let g := set_state GAMEOVER g in
  if hiscore g <? score g then
    let g := set_log (log g ++ [SavedHiscore (score g)])
               (set_hiscore_file
                  (save_hiscore (fs_writable g) (score g) (hiscore_file g)) g) in
    set_hiscore (score g) g
  else g.

(** [register_miss(reason)]; the reason is not used. *)
Definition register_miss (g : t) : t :=
  let g := set_streak 0 g in
  let g := set_lives (lives g - 1) g in
  if lives g <=? 0 then game_over g else g.

(** [register_hit(correct, tip)]. *)
Definition register_hit (correct : bool) (tip : string) (g : t) : t :=
  if correct then
    let g := set_streak (streak g + 1) g in
    let base := 50 in
    let bonus := Z.min (5 * streak g) 150 in
    let g := set_score (score g + (base + bonus)) g in
    let g := set_tip_message tip g in
    let g := set_tip_timer 3.5%Q g in
    play_sfx (snd_correct g) g
  else
    let g := register_miss g in
    let g := set_tip_message tip g in
    let g := set_tip_timer 3.5%Q g in
    play_sfx (snd_wrong g) g.

(** The test [it.y > SCREEN_H + 60]. *)
Definition fell_off (it : Item.t) : bool :=
  Qltb (inject_Z (SCREEN_H + 60)) (Item.y it).

(** The loop [for it in self.items[:]] of [update].  [done] holds the items
    already visited that are still in [self.items], [todo] the items not yet
    visited, so that [self.items] is [done ++ todo].  Visiting [it] updates
    the object in place; [self.items.remove(it)] then scans from the front
    and stops at [it] itself at the latest, so it never reaches [todo]
    (lemma [list_remove_app_self]). *)
Fixpoint update_items (fall_speed : Q) (done todo : list Item.t) (g : t) : t :=
  match todo with
  | [] => set_items done g
  | it :: rest =>
      let it := Item.update fall_speed it in
      if fell_off it then
        update_items fall_speed (list_remove it (done ++ [it])) rest
          (register_miss (set_items (list_remove it (done ++ it :: rest)) g))
      else
        update_items fall_speed (done ++ [it]) rest (set_items (done ++ it :: rest) g)
  end.

(** [update], first block: the spawn counter and the spawn it triggers;
    [r] holds the random draws for the case that it spawns. *)
Definition spawn_tick (spawn_interval : Z) (r : Rand) (g : t) : t :=
  let g := set_frames_since_spawn (frames_since_spawn g + 1) g in
  if spawn_interval <=? frames_since_spawn g then
    spawn_item r (set_frames_since_spawn 0 g)
  else g.

(** [update], block "Tip timer". *)
Definition tip_tick (dt : Q) (g : t) : t :=
  if Qltb 0 (tip_timer g) then
    let g := set_tip_timer (tip_timer g - dt)%num g in
    if Qle_bool (tip_timer g) 0 then set_tip_message EmptyString g else g
  else g.

(** [update], block "Level timer & check progress". *)
Definition level_tick (dt : Q) (g : t) : t :=
  let g := set_level_time_left (level_time_left g - dt)%num g in
  if Qle_bool (level_time_left g) 0 then
    if (level_target g <=? score g) && (level g <? List.length LEVELS - 1)%nat then
      let g := set_level (level g + 1)%nat g in
      let g := set_level_time_left (row_duration (LEVELS_at (level g))) g in
      let g := set_level_target (row_target (LEVELS_at (level g))) g in
      let g := set_tip_message
                 ("Level up! Level " ++ str_of_Z (Z.of_nat (level g) + 1) ++ " ðŸŽ‰")%string g in
      let g := set_tip_timer 3.0%Q g in
      play_sfx (snd_levelup g) g
    else game_over g
  else g.

(** [update(dt)]: nothing unless PLAYING; then the four blocks in order,
    with the level's row read once at the start. *)
Definition update (dt : Q) (r : Rand) (g : t) : t :=
  match state g with
  | PLAYING =>
      let row := LEVELS_at (level g) in
      let fall_speed := row_fall_speed row in
      let spawn_interval := row_spawn_interval row in
      let g := spawn_tick spawn_interval r g in
      let g := update_items fall_speed [] (items g) g in
      let g := tip_tick dt g in
      level_tick dt g
  | _ => g
  end.

(** The first hit of [handle_mouse_down]'s scan: the first item of [l]
    whose rectangle contains [pos] starts being dragged; the scan stops
    there. *)
Fixpoint grab_first (pos : Z * Z) (l : list Item.t) : list Item.t :=
  match l with
  | [] => []
  | it :: rest =>
      if Rect.collidepoint (Item.rect it) pos then
        let '(mx, my) := pos in
        let it := Item.set_dragging true it in
        let it := Item.set_grabbed_dx (Item.x it - inject_Z mx)%num it in
        let it := Item.set_grabbed_dy (Item.y it - inject_Z my)%num it in
        it :: rest
      else it :: grab_first pos rest
  end.

(** [handle_mouse_down(pos)]: the scan runs over [reversed(self.items)]. *)
Definition handle_mouse_down (pos : Z * Z) (g : t) : t :=
  match state g with
  | PLAYING => set_items (rev (grab_first pos (rev (items g)))) g
  | _ => g
  end.

(** The first dragged item of the list, with what precedes and follows. *)
Fixpoint split_dragged (l : list Item.t)
  : option (list Item.t * Item.t * list Item.t) :=
  match l with
  | [] => None
  | it :: rest =>
      if Item.dragging it then Some ([], it, rest)
      else match split_dragged rest with
           | Some (pre, d, post) => Some (it :: pre, d, post)
           | None => None
           end
  end.

(** The test [b.rect.colliderect(it.rect())] of [handle_mouse_up]. *)
Definition overlaps (it : Item.t) (b : Bin.t) : bool :=
  Rect.colliderect (Bin.rect b) (Item.rect it).

(** The tip that [handle_mouse_up] passes on. *)
Definition drop_tip (correct : bool) (it : Item.t) : string :=
  if correct then ("âœ… " ++ Item.name it ++ ": " ++ Item.tip it)%string
  else ("âŒ " ++ Item.name it ++ " goes in " ++ Item.category it ++ " bin.")%string.

(** [handle_mouse_up(pos)]; the position is not used.  Only the first
    dragged item of [self.items] is looked at, and the bins are tried in
    list order up to the first that overlaps. *)
Definition handle_mouse_up (pos : Z * Z) (g : t) : t :=
  match state g with
  | PLAYING =>
      match split_dragged (items g) with
      | None => g
      | Some (pre, it, post) =>
          let it := Item.set_dragging false it in
          let g := set_items (pre ++ it :: post) g in
          match find (overlaps it) (bins g) with
          | Some b =>
              let g := set_items (list_remove it (items g)) g in
              let correct := String.eqb (Item.category it) (Bin.label b) in
              let tip := drop_tip correct it in
              register_hit correct tip g
          | None => g
          end
      end
  | _ => g
  end.

(** [handle_mouse_motion(pos)]: every dragged item follows the pointer. *)
Definition handle_mouse_motion (pos : Z * Z) (g : t) : t :=
  match state g with
  | PLAYING =>
      let '(mx, my) := pos in
      set_items
        (map (fun it =>
                if Item.dragging it then
                  let it := Item.set_x (inject_Z mx + Item.grabbed_dx it)%num it in
                  let it := Item.set_y (inject_Z my + Item.grabbed_dy it)%num it in
                  let it := Item.set_vx 0%Q it in
                  Item.set_vy 0%Q it
                else it)
             (items g))
        g
  | _ => g
  end.

(** The events that [run] tells apart. *)
Inductive Key : Type := K_ESCAPE | K_SPACE | K_p | K_m | K_r | K_other.

Inductive Event : Type :=
| QUIT
| KEYDOWN (key : Key)
| MOUSEBUTTONDOWN (button : Z) (pos : Z * Z)
| MOUSEBUTTONUP (button : Z) (pos : Z * Z)
| MOUSEMOTION (pos : Z * Z)
| OTHER.

(** The body of [for event in pygame.event.get()], on the pair of the
    local [running] and [self]. *)
Definition handle_event (ev : Event) (rg : bool * t) : bool * t :=
  let '(running, g) := rg in
  match ev with
  | QUIT => (false, g)
  | KEYDOWN key =>
      match key, state g with
      | K_ESCAPE, _ => (false, g)
      | K_SPACE, MENU => (running, set_state PLAYING g)
      | K_p, PLAYING => (running, set_state PAUSE g)
      | K_p, PAUSE => (running, set_state PLAYING g)
      | K_m, _ => (running, set_muted (negb (muted g)) g)
      | K_r, GAMEOVER => (running, set_state PLAYING (reset false g))
      | _, _ => (running, g)
      end
  | MOUSEBUTTONDOWN button pos =>
      if button =? 1 then (running, handle_mouse_down pos g) else (running, g)
  | MOUSEBUTTONUP button pos =>
      if button =? 1 then (running, handle_mouse_up pos g) else (running, g)
  | MOUSEMOTION pos => (running, handle_mouse_motion pos g)
  | OTHER => (running, g)
  end.

(** What one pass of the [while running] loop consumes: the seconds
    [clock.tick] reports, the pending events, and the random draws. *)
Record Frame : Type := mkFrame {
  dt : Q;
  events : list Event;
  rand : Rand
}.

(** One pass of the loop; drawing changes nothing in the game. *)
Definition frame (f : Frame) (g : t) : bool * t :=
  let '(running, g) :=
    fold_left (fun rg ev => handle_event ev rg) (events f) (true, g) in
  match state g with
  | PLAYING => (running, update (dt f) (rand f) g)
  | _ => (running, g)
  end.

(** [run()], on the frames the session goes through. *)
Fixpoint run (fs : list Frame) (g : t) : t :=
  match fs with
  | [] => g
  | f :: fs' =>
      let '(running, g) := frame f g in
      if running then run fs' g else g
  end.

End Game.

Import Game.

(** ** Sessions used as examples *)

(** A machine with sound, no high-score file yet, and a writable disk. *)
Definition env0 : Env := mkEnv true true Absent true.

(** [n] correct drops in a row, each with its own tip. *)
Definition correct_drops (tips : list string) (g : t) : t :=
  fold_left (fun g tip => register_hit true tip g) tips g.

(** The gains of [n] correct drops in a row from streak [s], summed. *)
Fixpoint gains (s : Z) (n : nat) : Z :=
  match n with
  | O => 0
  | S n' => (50 + Z.min (5 * (s + 1)) 150) + gains (s + 1) n'
  end.

(** The draws that spawn a "Battery" at x = 500 falling at 1.5. *)
Definition battery_draw : Rand := mkRand 21 500 0%Q 1.5%Q 0.1%Q.

(** A frame at 60 frames per second with no input. *)
Definition idle : Frame := mkFrame (1 # 60) [] battery_draw.

(** SPACE at the menu, then the 80 idle frames after which the first item,
    spawned in the 75th update, has come into view. *)
Definition opening : list Frame :=
  mkFrame (1 # 60) [KEYDOWN K_SPACE] battery_draw :: repeat idle 80.

(** Grab the battery at the top edge of the screen, carry it over the
    E-Waste bin and release it there, all within one frame. *)
Definition battery_into_ewaste : Frame :=
  mkFrame (1 # 60)
    [MOUSEBUTTONDOWN 1 (510, 0); MOUSEMOTION (900, 560); MOUSEBUTTONUP 1 (900, 560)]
    battery_draw.

(** The same, but released over the Paper bin. *)
Definition battery_into_paper : Frame :=
  mkFrame (1 # 60)
    [MOUSEBUTTONDOWN 1 (510, 0); MOUSEMOTION (100, 560); MOUSEBUTTONUP 1 (100, 560)]
    battery_draw.

(** The battery grabbed and held over the E-Waste bin. *)
Definition carrying_battery : t :=
  Eval vm_compute in
    snd (fold_left (fun rg ev => handle_event ev rg)
           [MOUSEBUTTONDOWN 1 (510, 0); MOUSEMOTION (900, 560)]
           (true, run opening (init env0))).

(** Two batteries put into the Paper bin, one after the other, and the
    wait for the third to come into view. *)
Definition two_wrong : list Frame :=
  opening ++ [battery_into_paper] ++ repeat idle 74 ++
  [battery_into_paper] ++ repeat idle 74.

(** The third battery grabbed and held over the Paper bin, one life left. *)
Definition last_life : t :=
  Eval vm_compute in
    snd (fold_left (fun rg ev => handle_event ev rg)
           [MOUSEBUTTONDOWN 1 (510, 0); MOUSEMOTION (100, 560)]
           (true, run two_wrong (init env0))).

(** With one life left: the third battery is grabbed by its top edge once
    it is fully in view and parked just below the bins, where it overlaps
    none of them. *)
Definition park_at_bottom : Frame :=
  mkFrame (1 # 60) [MOUSEBUTTONDOWN 1 (510, 0); MOUSEMOTION (510, 649)] battery_draw.

(** The parked battery is let go, and the fourth one is parked at the same
    place and let go too, within one frame. *)
Definition swap_at_bottom : Frame :=
  mkFrame (1 # 60)
    [MOUSEBUTTONUP 1 (510, 649); MOUSEBUTTONDOWN 1 (510, 0);
     MOUSEMOTION (510, 649); MOUSEBUTTONUP 1 (510, 649)]
    battery_draw.

(** The session up to the frame before both batteries leave the screen. *)
Definition to_the_brink : list Frame :=
  two_wrong ++ repeat idle 17 ++ [park_at_bottom] ++ repeat idle 74 ++
  [swap_at_bottom] ++ repeat idle 48.

(** The state that session ends in: one life, two batteries at the edge. *)
Definition on_the_brink : t := Eval vm_compute in run to_the_brink (init env0).

(** [register_miss], [k] times over. *)
Definition misses (k : nat) (g : t) : t := Nat.iter k register_miss g.

(** The items kept by the scan of [update], and the number it drops. *)
Definition kept (fall_speed : Q) (l : list Item.t) : list Item.t :=
  filter (fun it => negb (fell_off it)) (map (Item.update fall_speed) l).

Definition dropped (fall_speed : Q) (l : list Item.t) : nat :=
  List.length (filter fell_off (map (Item.update fall_speed) l)).

(** The state right after SPACE at the menu, with the clock about to
    report a minute. *)
Definition just_started : t :=
  snd (handle_event (KEYDOWN K_SPACE) (true, init env0)).

(** The first three blocks of one [update], up to the level timer. *)
Definition before_level_tick (dt : Q) (r : Rand) (g : t) : t :=
  let row := LEVELS_at (level g) in
  let g := spawn_tick (row_spawn_interval row) r g in
  let g := update_items (row_fall_speed row) [] (items g) g in
  tip_tick dt g.

(** The states a session can be in: the state after start-up, after any
    event, and after any [update] that [run] performs, which it does only
    while PLAYING. *)
Inductive reachable : t -> Prop :=
| reach_init e : reachable (init e)
| reach_event ev running g :
    reachable g -> reachable (snd (handle_event ev (running, g)))
| reach_update dt r g :
    reachable g -> state g = PLAYING -> reachable (update dt r g).

(** The invariants of the round state. *)
Definition round_ok (g : t) : Prop :=
  (level g < List.length LEVELS)%nat /\
  level_target g = row_target (LEVELS_at (level g)) /\
  0 <= streak g /\ 0 <= score g /\ lives g <= LIVES_START.

(** The reads of the high-score file that a state has on its log. *)
Definition loads (g : t) : list Effect := filter is_load (log g).

(** A round with one correct and three wrong drops, which ends the game
    with a score of 55. *)
Definition one_round : list Frame :=
  opening ++ [battery_into_ewaste] ++ repeat idle 74 ++
  [battery_into_paper] ++ repeat idle 74 ++
  [battery_into_paper] ++ repeat idle 74 ++ [battery_into_paper].

(** R pressed at the game-over screen. *)
Definition restart : Frame := mkFrame (1 # 60) [KEYDOWN K_r] battery_draw.

(** The same machine as [env0] with a disk that cannot be written. *)
Definition env_readonly : Env := mkEnv true true Absent false.

(** The battery grabbed at the top of the screen, and the game paused
    before the button is let go. *)
Definition paused_mid_drag : t :=
  Eval vm_compute in
    snd (fold_left (fun rg ev => handle_event ev rg)
           [MOUSEBUTTONDOWN 1 (510, 0); KEYDOWN K_p]
           (true, run opening (init env0))).

(** The battery grabbed at the top of the screen, where no bin is. *)
Definition grabbed_at_top : t :=
  Eval vm_compute in handle_mouse_down (510, 0) (run opening (init env0)).

(** What [handle_mouse_motion] does to one item. *)
Definition follows (pos : Z * Z) (it it' : Item.t) : Prop :=
  if Item.dragging it then
    Item.x it' = (inject_Z (fst pos) + Item.grabbed_dx it)%num /\
    Item.y it' = (inject_Z (snd pos) + Item.grabbed_dy it)%num /\
    Item.vx it' = 0%Q /\ Item.vy it' = 0%Q /\
    Item.dragging it' = true /\
    Item.grabbed_dx it' = Item.grabbed_dx it /\
    Item.grabbed_dy it' = Item.grabbed_dy it /\
    Item.rot it' = Item.rot it /\
    Item.name it' = Item.name it /\ Item.category it' = Item.category it /\
    Item.tip it' = Item.tip it
  else it' = it.

(** What [handle_mouse_down] does to one item: nothing, or the grab, which
    records the offset from the pointer and changes neither position nor
    velocity. *)
Definition grabbed_or_same (pos : Z * Z) (it it' : Item.t) : Prop :=
  it' = it \/
  (Rect.collidepoint (Item.rect it) pos = true /\
   Item.dragging it' = true /\
   Item.grabbed_dx it' = (Item.x it - inject_Z (fst pos))%num /\
   Item.grabbed_dy it' = (Item.y it - inject_Z (snd pos))%num /\
   Item.x it' = Item.x it /\ Item.y it' = Item.y it /\
   Item.vx it' = Item.vx it /\ Item.vy it' = Item.vy it /\
   Item.rot it' = Item.rot it).

(** A click on the battery: button down and up at the same place, with no
    motion in between. *)
Definition click_on_battery : Frame :=
  mkFrame (1 # 60) [MOUSEBUTTONDOWN 1 (510, 0); MOUSEBUTTONUP 1 (510, 0)] battery_draw.

(** The number of items that are being dragged. *)
Definition count_dragging (l : list Item.t) : nat :=
  List.length (filter Item.dragging l).

(** The item as [handle_mouse_down] leaves it when it grabs it. *)
Definition grab (pos : Z * Z) (it : Item.t) : Item.t :=
  Item.set_grabbed_dy (Item.y it - inject_Z (snd pos))%num
    (Item.set_grabbed_dx (Item.x it - inject_Z (fst pos))%num
       (Item.set_dragging true it)).

(** The battery is grabbed, the game is paused, the button is let go while
    paused, and the game is resumed. *)
Definition grab_pause_release_resume : Frame :=
  mkFrame (1 # 60)
    [MOUSEBUTTONDOWN 1 (510, 0); KEYDOWN K_p; MOUSEBUTTONUP 1 (510, 0); KEYDOWN K_p]
    battery_draw.

(** The next battery is grabbed once it has come into view. *)
Definition grab_again : Frame :=
  mkFrame (1 # 60) [MOUSEBUTTONDOWN 1 (510, 0)] battery_draw.

(** A session in which each press of the button is followed by its
    release, and two items end up dragged. *)
Definition two_dragged : list Frame :=
  opening ++ [grab_pause_release_resume] ++ repeat idle 74 ++ [grab_again].

(** The events that end the loop: the window's close button and ESC. *)
Definition is_quit (ev : Event) : bool :=
  match ev with
  | QUIT | KEYDOWN K_ESCAPE => true
  | _ => false
  end.

(** The window is closed while SPACE is still in the queue. *)
Definition closing_frame : Frame :=
  mkFrame (1 # 60) [QUIT; KEYDOWN K_SPACE] battery_draw.

(** The key presses. *)
Definition is_keydown (ev : Event) : bool :=
  match ev with
  | KEYDOWN _ => true
  | _ => false
  end.

(** The events of a frame, handled in order. *)
Definition handle_events (evs : list Event) (rg : bool * t) : bool * t :=
  fold_left (fun rg ev => handle_event ev rg) evs rg.

(** The arrows of the state machine, apart from staying put. *)
Definition arrow (s s' : State) : bool :=
  match s, s' with
  | MENU, PLAYING | PLAYING, PAUSE | PAUSE, PLAYING
  | PLAYING, GAMEOVER | GAMEOVER, PLAYING => true
  | _, _ => false
  end.

(** * Properties *)

(** ** Bookkeeping lemmas *)

(** Projections of setters. *)
Ltac gsimpl :=
  cbn [items score hiscore lives level level_time_left level_target
       frames_since_spawn streak tip_message tip_timer state bins muted
       snd_correct snd_wrong snd_levelup hiscore_file fs_writable log
       set_items set_score set_hiscore set_lives set_level set_level_time_left
       set_level_target set_frames_since_spawn set_streak set_tip_message
       set_tip_timer set_state set_bins set_muted set_hiscore_file set_log].

Lemma play_sfx_fields snd g :
  items (play_sfx snd g) = items g /\ score (play_sfx snd g) = score g /\
  hiscore (play_sfx snd g) = hiscore g /\ lives (play_sfx snd g) = lives g /\
  level (play_sfx snd g) = level g /\ streak (play_sfx snd g) = streak g /\
  state (play_sfx snd g) = state g /\ hiscore_file (play_sfx snd g) = hiscore_file g /\
  level_time_left (play_sfx snd g) = level_time_left g /\
  level_target (play_sfx snd g) = level_target g.
Proof.
  unfold play_sfx. destruct snd as [s|]; [destruct (muted g)|]; cbn; repeat split.
Qed.

Lemma game_over_fields g :
  items (game_over g) = items g /\ score (game_over g) = score g /\
  lives (game_over g) = lives g /\ level (game_over g) = level g /\
  streak (game_over g) = streak g /\ state (game_over g) = GAMEOVER /\
  level_time_left (game_over g) = level_time_left g /\
  level_target (game_over g) = level_target g.
Proof.
  unfold game_over. cbn. destruct (hiscore g <? score g); cbn; repeat split.
Qed.

Lemma register_miss_fields g :
  items (register_miss g) = items g /\ score (register_miss g) = score g /\
  lives (register_miss g) = lives g - 1 /\ level (register_miss g) = level g /\
  streak (register_miss g) = 0 /\
  state (register_miss g) = (if lives g - 1 <=? 0 then GAMEOVER else state g) /\
  level_time_left (register_miss g) = level_time_left g /\
  level_target (register_miss g) = level_target g.
Proof.
  unfold register_miss. cbn. destruct (lives g - 1 <=? 0); cbn.
  - unfold game_over. cbn. destruct (hiscore g <? score g); cbn; repeat split.
  - repeat split.
Qed.

Lemma register_hit_true_fields tip g :
  items (register_hit true tip g) = items g /\
  score (register_hit true tip g) = score g + (50 + Z.min (5 * (streak g + 1)) 150) /\
  lives (register_hit true tip g) = lives g /\
  streak (register_hit true tip g) = streak g + 1 /\
  state (register_hit true tip g) = state g /\
  level (register_hit true tip g) = level g /\
  level_target (register_hit true tip g) = level_target g.
Proof.
  unfold register_hit, play_sfx. cbn.
  destruct (snd_correct g) as [s|]; [destruct (muted g)|]; cbn; repeat split.
Qed.

Lemma register_hit_false_fields tip g :
  items (register_hit false tip g) = items g /\
  score (register_hit false tip g) = score g /\
  lives (register_hit false tip g) = lives g - 1 /\
  streak (register_hit false tip g) = 0 /\
  state (register_hit false tip g) = (if lives g - 1 <=? 0 then GAMEOVER else state g) /\
  level (register_hit false tip g) = level g /\
  level_target (register_hit false tip g) = level_target g.
Proof.
  unfold register_hit.
  destruct (register_miss_fields g) as (Hi & Hs & Hl & Hv & Hk & Hst & _ & Hg).
  set (g1 := register_miss g) in *.
  unfold play_sfx. cbn.
  destruct (snd_wrong g1) as [s|]; [destruct (muted g1)|]; cbn; repeat split; assumption.
Qed.

Lemma Item_eqb_refl it : Item.eqb it it = true.
Proof.
  unfold Item.eqb, Color_eqb. destruct (Item.color it) as [[r gr] b].
  rewrite !String.eqb_refl, !Qeq_bool_refl, !Z.eqb_refl, Bool.eqb_reflx.
  reflexivity.
Qed.

Lemma Item_eqb_y a b : Item.eqb a b = true -> (Item.y a == Item.y b)%Q.
Proof.
  unfold Item.eqb. intros H.
  repeat (apply andb_prop in H; destruct H as [H ?]).
  now apply Qeq_bool_eq.
Qed.

Lemma Item_eqb_fell_off a b : Item.eqb a b = true -> fell_off a = fell_off b.
Proof.
  intros H. apply Item_eqb_y in H. unfold fell_off, Qltb. f_equal.
  apply eq_true_iff_eq. rewrite !Qle_bool_iff. now rewrite H.
Qed.

(** [list.remove(it)] stops at [it] at the latest. *)
Lemma list_remove_app_self it done rest :
  list_remove it (done ++ it :: rest) = list_remove it (done ++ [it]) ++ rest.
Proof.
  induction done as [|d done IH]; cbn.
  - now rewrite Item_eqb_refl.
  - destruct (Item.eqb d it); [now rewrite <- app_assoc | now rewrite IH].
Qed.

(** An item that fell off is not equal to any item that did not. *)
Lemma list_remove_fell_off it done :
  Forall (fun d => fell_off d = false) done -> fell_off it = true ->
  list_remove it (done ++ [it]) = done.
Proof.
  intros Hd Hit. induction Hd as [|d done Hdf _ IH]; cbn.
  - now rewrite Item_eqb_refl.
  - destruct (Item.eqb d it) eqn:E.
    + apply Item_eqb_fell_off in E. congruence.
    + now rewrite IH.
Qed.

Lemma set_items_set_items l l' g : set_items l (set_items l' g) = set_items l g.
Proof. reflexivity. Qed.

Lemma register_miss_set_items l g :
  register_miss (set_items l g) = set_items l (register_miss g).
Proof.
  unfold register_miss, game_over. cbn.
  destruct (lives g - 1 <=? 0); cbn; [destruct (hiscore g <? score g)|]; reflexivity.
Qed.

Lemma misses_set_items k l g : misses k (set_items l g) = set_items l (misses k g).
Proof.
  unfold misses. induction k as [|k IH]; [reflexivity|].
  now rewrite !Nat.iter_succ, IH, register_miss_set_items.
Qed.

Lemma misses_register_miss k g : misses k (register_miss g) = misses (S k) g.
Proof.
  unfold misses. symmetry. apply Nat.iter_succ_r.
Qed.

Lemma misses_fields k g :
  score (misses k g) = score g /\ lives (misses k g) = lives g - Z.of_nat k /\
  level (misses k g) = level g /\ level_time_left (misses k g) = level_time_left g /\
  level_target (misses k g) = level_target g /\
  streak (misses k g) = (match k with O => streak g | S _ => 0 end).
Proof.
  unfold misses. induction k as [|k IH]; [cbn; repeat split; lia|].
  rewrite Nat.iter_succ.
  destruct IH as (Hs & Hl & Hv & Ht & Hg & _).
  destruct (register_miss_fields (Nat.iter k register_miss g))
    as (_ & Hs' & Hl' & Hv' & Hk' & _ & Ht' & Hg').
  repeat split; try congruence. lia.
Qed.

Lemma update_items_spec fs todo : forall done g,
  Forall (fun d => fell_off d = false) done ->
  update_items fs done todo g =
  set_items (done ++ kept fs todo) (misses (dropped fs todo) g).
Proof.
  unfold kept, dropped.
  induction todo as [|it rest IH]; intros done g Hd;
    cbn [update_items map filter].
  - cbn. now rewrite app_nil_r.
  - destruct (fell_off (Item.update fs it)) eqn:E; cbn [negb List.length].
    + rewrite (list_remove_fell_off _ _ Hd E), (IH _ _ Hd).
      rewrite register_miss_set_items, misses_set_items, set_items_set_items.
      now rewrite misses_register_miss.
    + rewrite IH.
      * now rewrite <- app_assoc, misses_set_items, set_items_set_items.
      * apply Forall_app. split; [assumption|]. now constructor.
Qed.

Lemma spawn_item_items r g :
  exists it, spawn_item r g = set_items (items g ++ [it]) g /\
             Item.dragging it = false.
Proof.
  unfold spawn_item.
  destruct (match dict_get _ ITEMS with Some ct => ct | None => _ end) as [c tp].
  eexists. split; reflexivity.
Qed.

Lemma spawn_tick_fields n r g :
  score (spawn_tick n r g) = score g /\ lives (spawn_tick n r g) = lives g /\
  level (spawn_tick n r g) = level g /\ streak (spawn_tick n r g) = streak g /\
  state (spawn_tick n r g) = state g /\
  level_time_left (spawn_tick n r g) = level_time_left g /\
  level_target (spawn_tick n r g) = level_target g.
Proof.
  unfold spawn_tick.
  destruct (n <=? _); [|cbn; repeat split].
  destruct (spawn_item_items r
              (set_frames_since_spawn 0
                 (set_frames_since_spawn (frames_since_spawn g + 1) g)))
    as (it & -> & _).
  cbn; repeat split.
Qed.

Lemma tip_tick_fields dt g :
  items (tip_tick dt g) = items g /\
  score (tip_tick dt g) = score g /\ lives (tip_tick dt g) = lives g /\
  level (tip_tick dt g) = level g /\ streak (tip_tick dt g) = streak g /\
  state (tip_tick dt g) = state g /\
  level_time_left (tip_tick dt g) = level_time_left g /\
  level_target (tip_tick dt g) = level_target g.
Proof.
  unfold tip_tick. destruct (Qltb 0 (tip_timer g)); [|repeat split].
  cbn. destruct (Qle_bool _ 0); cbn; repeat split.
Qed.

Lemma update_playing dt r g :
  state g = PLAYING -> update dt r g = level_tick dt (before_level_tick dt r g).
Proof. intros H. unfold update, before_level_tick. now rewrite H. Qed.

Lemma update_not_playing dt r g : state g <> PLAYING -> update dt r g = g.
Proof. intros H. unfold update. destruct (state g); congruence. Qed.

(** The round after the first three blocks: the items that stayed on
    screen, one life less per item that fell off, the score untouched. *)
Lemma before_level_tick_fields dt r g :
  let fs := row_fall_speed (LEVELS_at (level g)) in
  let l := items (spawn_tick (row_spawn_interval (LEVELS_at (level g))) r g) in
  let g' := before_level_tick dt r g in
  items g' = kept fs l /\
  score g' = score g /\
  lives g' = lives g - Z.of_nat (dropped fs l) /\
  level g' = level g /\
  level_time_left g' = level_time_left g /\
  level_target g' = level_target g /\
  streak g' = (match dropped fs l with O => streak g | S _ => 0 end).
Proof.
  cbv zeta. unfold before_level_tick.
  set (fs := row_fall_speed (LEVELS_at (level g))).
  set (g1 := spawn_tick (row_spawn_interval (LEVELS_at (level g))) r g).
  destruct (spawn_tick_fields (row_spawn_interval (LEVELS_at (level g))) r g)
    as (Hs & Hl & Hv & Hk & _ & Ht & Hg). fold g1 in Hs, Hl, Hv, Hk, Ht, Hg.
  rewrite update_items_spec by constructor. cbn [app].
  set (l := items g1).
  destruct (tip_tick_fields dt (set_items (kept fs l) (misses (dropped fs l) g1)))
    as (Hi' & Hs' & Hl' & Hv' & Hk' & _ & Ht' & Hg').
  destruct (misses_fields (dropped fs l) g1) as (Hs2 & Hl2 & Hv2 & Ht2 & Hg2 & Hk2).
  rewrite Hi', Hs', Hl', Hv', Hk', Ht', Hg'. cbn.
  rewrite Hs2, Hl2, Hv2, Ht2, Hg2, Hk2, Hs, Hl, Hv, Ht, Hg, Hk.
  repeat split.
Qed.

(** ** Releasing a dragged item *)

Lemma split_dragged_some l pre it post :
  split_dragged l = Some (pre, it, post) ->
  l = pre ++ it :: post /\ Item.dragging it = true /\
  Forall (fun a => Item.dragging a = false) pre.
Proof.
  revert pre. induction l as [|a l IH]; intros pre H; cbn in H; [discriminate|].
  destruct (Item.dragging a) eqn:E.
  - injection H as <- <- <-. repeat split; [assumption | constructor].
  - destruct (split_dragged l) as [[[pre' d] post']|]; [|discriminate].
    injection H as <- <- <-.
    destruct (IH pre' eq_refl) as (-> & Hd & Hp).
    repeat split; [assumption | now constructor].
Qed.

Lemma split_dragged_none l :
  split_dragged l = None -> Forall (fun a => Item.dragging a = false) l.
Proof.
  induction l as [|a l IH]; intros H; cbn in H; [constructor|].
  destruct (Item.dragging a) eqn:E; [discriminate|].
  destruct (split_dragged l) as [[[pre' d] post']|]; [discriminate|].
  constructor; auto.
Qed.

(** A release over a bin hands the drop to [register_hit]. *)
Lemma handle_mouse_up_placed pos g pre it post b :
  state g = PLAYING ->
  split_dragged (items g) = Some (pre, it, post) ->
  find (overlaps it) (bins g) = Some b ->
  let it' := Item.set_dragging false it in
  let correct := String.eqb (Item.category it) (Bin.label b) in
  handle_mouse_up pos g =
  register_hit correct (drop_tip correct it')
    (set_items (list_remove it' (pre ++ it' :: post)) g).
Proof.
  intros Hs Hd Hf. unfold handle_mouse_up. rewrite Hs, Hd. cbn [bins set_items].
  change (overlaps (Item.set_dragging false it)) with (overlaps it).
  now rewrite Hf.
Qed.

(** A release over no bin only clears the flag. *)
Lemma handle_mouse_up_not_placed pos g pre it post :
  state g = PLAYING ->
  split_dragged (items g) = Some (pre, it, post) ->
  find (overlaps it) (bins g) = None ->
  handle_mouse_up pos g = set_items (pre ++ Item.set_dragging false it :: post) g.
Proof.
  intros Hs Hd Hf. unfold handle_mouse_up. rewrite Hs, Hd. cbn [bins set_items].
  change (overlaps (Item.set_dragging false it)) with (overlaps it).
  now rewrite Hf.
Qed.

(** ** Scoring *)

Lemma correct_drops_fields tips : forall g,
  streak (correct_drops tips g) = streak g + Z.of_nat (List.length tips) /\
  score (correct_drops tips g) = score g + gains (streak g) (List.length tips).
Proof.
  unfold correct_drops.
  induction tips as [|tip tips IH]; intros g; cbn [fold_left List.length gains].
  - split; lia.
  - destruct (IH (register_hit true tip g)) as [Hk Hs].
    destruct (register_hit_true_fields tip g) as (_ & Hs1 & _ & Hk1 & _).
    rewrite Hk, Hs, Hk1, Hs1. split; lia.
Qed.

(** C1.  A correct placement adds one to the streak and then adds
    [50 + min(5 * streak, 150)] to the score, the streak being the new one.
    This holds for [register_hit(correct=True)] itself and for the release of
    a dragged item over the first overlapping bin when that bin carries the
    item's category.  From a fresh session the first correct drop gives score
    55 and streak 1; three in a row gain 55, 60 and 65, that is 55, 115 and
    180 in total; and the session in which a Battery is carried into the
    E-Waste bin ends with score 55 and streak 1. *)
Theorem correct_drop_scores :
  (forall tip g,
     let g' := register_hit true tip g in
     streak g' = streak g + 1 /\
     score g' = score g + (50 + Z.min (5 * streak g') 150)) /\
  (forall pos g pre it post b,
     state g = PLAYING ->
     split_dragged (items g) = Some (pre, it, post) ->
     find (overlaps it) (bins g) = Some b ->
     Item.category it = Bin.label b ->
     let g' := handle_mouse_up pos g in
     streak g' = streak g + 1 /\
     score g' = score g + (50 + Z.min (5 * streak g') 150)) /\
  (forall e tip,
     score (register_hit true tip (init e)) = 55 /\
     streak (register_hit true tip (init e)) = 1) /\
  (forall e t1 t2 t3,
     let g1 := register_hit true t1 (init e) in
     let g2 := register_hit true t2 g1 in
     let g3 := register_hit true t3 g2 in
     (score g1 = 55 /\ score g2 = score g1 + 60 /\ score g3 = score g2 + 65) /\
     (score g2 = 115 /\ score g3 = 180) /\
     (streak g1 = 1 /\ streak g2 = 2 /\ streak g3 = 3)) /\
  (let g := run (opening ++ [battery_into_ewaste]) (init env0) in
   score g = 55 /\ streak g = 1 /\ items g = []).
Proof.
  assert (Hhit : forall tip g,
             streak (register_hit true tip g) = streak g + 1 /\
             score (register_hit true tip g) =
             score g + (50 + Z.min (5 * streak (register_hit true tip g)) 150)).
  { intros tip g. destruct (register_hit_true_fields tip g) as (_ & Hs & _ & Hk & _).
    rewrite Hk. split; [reflexivity | exact Hs]. }
  split; [exact Hhit|]. split; [|split; [|split]].
  - intros pos g pre it post b Hs Hd Hf Hc. cbv zeta.
    rewrite (handle_mouse_up_placed pos g pre it post b Hs Hd Hf).
    rewrite Hc, String.eqb_refl. apply (Hhit _ (set_items _ g)).
  - intros e tip. destruct (register_hit_true_fields tip (init e)) as (_ & Hs & _ & Hk & _).
    rewrite Hs, Hk. split; reflexivity.
  - intros e t1 t2 t3. cbv zeta.
    destruct (register_hit_true_fields t1 (init e)) as (_ & Hs1 & _ & Hk1 & _).
    destruct (register_hit_true_fields t2 (register_hit true t1 (init e)))
      as (_ & Hs2 & _ & Hk2 & _).
    destruct (register_hit_true_fields t3
                (register_hit true t2 (register_hit true t1 (init e))))
      as (_ & Hs3 & _ & Hk3 & _).
    rewrite Hs3, Hk3, Hs2, Hk2, Hs1, Hk1. cbn. repeat split.
  - vm_compute. repeat split.
Qed.

(** The second part of C1 at the battery held over the E-Waste bin. *)
Lemma correct_drop_scores_witness :
  streak (handle_mouse_up (900, 560) carrying_battery) = streak carrying_battery + 1 /\
  score (handle_mouse_up (900, 560) carrying_battery) =
  score carrying_battery +
  (50 + Z.min (5 * streak (handle_mouse_up (900, 560) carrying_battery)) 150).
Proof.
  eapply (proj1 (proj2 correct_drop_scores)); reflexivity.
Defined.

(** C2, as stated, fails on the first correct drop of a session: the streak
    before the drop is 0, for which the claimed gain is 50, and the score
    goes up by 55. *)
Lemma gain_uses_old_streak_counterexample :
  let g := init env0 in
  let g' := register_hit true EmptyString g in
  streak g = 0 /\ 50 + Z.min (5 * streak g) 150 = 50 /\
  score g' - score g = 55 /\
  score g' <> score g + (50 + Z.min (5 * streak g) 150) /\
  score (run (opening ++ [battery_into_ewaste]) g) - score (run opening g) = 55.
Proof. vm_compute. repeat split; congruence. Qed.

(** C2, amended.  After any sequence of correct drops, one more correct drop
    makes the score strictly larger, by [50 + min(5 * (streak + 1), 150)]
    where [streak] is the value before that drop: the bonus is computed
    from the streak after its increment.  The sequence as a whole adds the
    sum of these gains. *)
Theorem correct_drops_gain tips tip g :
  0 <= streak g ->
  let g0 := correct_drops tips g in
  let g1 := register_hit true tip g0 in
  score g1 = score g0 + (50 + Z.min (5 * (streak g0 + 1)) 150) /\
  score g0 < score g1 /\
  streak g1 = streak g0 + 1 /\
  score g0 = score g + gains (streak g) (List.length tips).
Proof.
  intros Hk. cbv zeta.
  destruct (correct_drops_fields tips g) as [Hk0 Hs0].
  destruct (register_hit_true_fields tip (correct_drops tips g)) as (_ & Hs & _ & Hk1 & _).
  rewrite Hs, Hk1. repeat split; [lia | exact Hs0].
Qed.

Lemma correct_drops_gain_witness :
  let g0 := correct_drops ["a"; "b"]%string (init env0) in
  let g1 := register_hit true "c"%string g0 in
  score g1 = score g0 + (50 + Z.min (5 * (streak g0 + 1)) 150) /\
  score g0 < score g1 /\
  streak g1 = streak g0 + 1 /\
  score g0 = score (init env0) + gains (streak (init env0)) 2.
Proof.
  apply (correct_drops_gain ["a"; "b"]%string "c"%string (init env0)).
  vm_compute. discriminate.
Defined.

(** ** Lives *)

Lemma level_tick_fields dt g :
  items (level_tick dt g) = items g /\ score (level_tick dt g) = score g /\
  lives (level_tick dt g) = lives g /\ streak (level_tick dt g) = streak g /\
  (state (level_tick dt g) = GAMEOVER \/ state (level_tick dt g) = state g).
Proof.
  unfold level_tick. cbn.
  destruct (Qle_bool _ 0); [|cbn; repeat split; now right].
  destruct (_ && _).
  - unfold play_sfx. cbn.
    destruct (snd_levelup g) as [s|]; [destruct (muted g)|]; cbn; repeat split; now right.
  - unfold game_over. cbn.
    destruct (hiscore g <? score g); cbn; repeat split; now left.
Qed.

Lemma misses_state k g :
  state (misses k g) = GAMEOVER \/
  (state (misses k g) = state g /\ (k = O \/ 0 < lives (misses k g))).
Proof.
  unfold misses. induction k as [|k IH]; [right; split; [reflexivity | now left]|].
  rewrite Nat.iter_succ.
  destruct (register_miss_fields (Nat.iter k register_miss g))
    as (_ & _ & Hl & _ & _ & Hst & _).
  rewrite Hst, Hl. destruct (Z.leb_spec (lives (Nat.iter k register_miss g) - 1) 0).
  - now left.
  - destruct IH as [IH | [IH _]]; [now left | right; split; [assumption | right; lia]].
Qed.

(** One [update] while PLAYING: the lives go down by the number of items
    that fell off, the streak is reset when there was one, and the state
    is GAMEOVER when no life is left after a miss. *)
Lemma update_lives dt r g :
  state g = PLAYING ->
  let fs := row_fall_speed (LEVELS_at (level g)) in
  let l := items (spawn_tick (row_spawn_interval (LEVELS_at (level g))) r g) in
  let g' := update dt r g in
  items g' = kept fs l /\
  score g' = score g /\
  lives g' = lives g - Z.of_nat (dropped fs l) /\
  streak g' = (match dropped fs l with O => streak g | S _ => 0 end) /\
  (dropped fs l <> O -> lives g' <= 0 -> state g' = GAMEOVER).
Proof.
  intros Hp. cbv zeta. rewrite (update_playing _ _ _ Hp).
  destruct (level_tick_fields dt (before_level_tick dt r g)) as (Hi & Hs & Hl & Hk & Hst).
  destruct (before_level_tick_fields dt r g) as (Hi' & Hs' & Hl' & _ & _ & _ & Hk').
  cbv zeta in Hi', Hs', Hl', Hk'.
  rewrite Hi, Hs, Hl, Hk, Hi', Hs', Hl', Hk'.
  repeat split. intros Hn Hle.
  destruct Hst as [Hst | Hst]; [assumption|]. rewrite Hst.
  unfold before_level_tick.
  set (fs := row_fall_speed (LEVELS_at (level g))) in *.
  set (g1 := spawn_tick (row_spawn_interval (LEVELS_at (level g))) r g) in *.
  rewrite update_items_spec by constructor. cbn [app].
  destruct (tip_tick_fields dt (set_items (kept fs (items g1)) (misses (dropped fs (items g1)) g1)))
    as (_ & _ & _ & _ & _ & -> & _).
  cbn [state set_items].
  destruct (misses_state (dropped fs (items g1)) g1) as [H | [_ [H | H]]];
    [assumption | contradiction |].
  destruct (misses_fields (dropped fs (items g1)) g1) as (_ & Hm & _).
  destruct (spawn_tick_fields (row_spawn_interval (LEVELS_at (level g))) r g)
    as (_ & Hl1 & _). fold g1 in Hl1.
  lia.
Qed.

Lemma on_the_brink_reached : run to_the_brink (init env0) = on_the_brink.
Proof. vm_compute. reflexivity. Qed.

(** C3.  A miss ([register_miss]) and a wrong placement
    ([register_hit(correct=False)], which a release over a bin of another
    category resolves to) set the streak to 0 and take exactly one life; an
    [update] in which items fall off takes one life per item and resets the
    streak; whenever the lives are at or below 0 afterwards, the state is
    GAMEOVER when the same call returns.  With one life left, a wrong drop
    ends with 0 lives in GAMEOVER, as in the session in which the third
    battery goes into the Paper bin. *)
Theorem wrong_drop_or_miss_costs_life :
  (forall g,
     let g' := register_miss g in
     streak g' = 0 /\ lives g' = lives g - 1 /\
     (lives g' <= 0 -> state g' = GAMEOVER)) /\
  (forall tip g,
     let g' := register_hit false tip g in
     streak g' = 0 /\ lives g' = lives g - 1 /\
     (lives g' <= 0 -> state g' = GAMEOVER)) /\
  (forall pos g pre it post b,
     state g = PLAYING ->
     split_dragged (items g) = Some (pre, it, post) ->
     find (overlaps it) (bins g) = Some b ->
     Item.category it <> Bin.label b ->
     let g' := handle_mouse_up pos g in
     streak g' = 0 /\ lives g' = lives g - 1 /\
     (lives g' <= 0 -> state g' = GAMEOVER) /\
     (lives g = 1 -> lives g' = 0 /\ state g' = GAMEOVER)) /\
  (forall dt r g,
     state g = PLAYING ->
     let fs := row_fall_speed (LEVELS_at (level g)) in
     let l := items (spawn_tick (row_spawn_interval (LEVELS_at (level g))) r g) in
     dropped fs l <> O ->
     let g' := update dt r g in
     streak g' = 0 /\ lives g' = lives g - Z.of_nat (dropped fs l) /\
     (lives g' <= 0 -> state g' = GAMEOVER)) /\
  (let g := run two_wrong (init env0) in
   let g' := run (two_wrong ++ [battery_into_paper]) (init env0) in
   lives g = 1 /\ state g = PLAYING /\
   lives g' = 0 /\ streak g' = 0 /\ state g' = GAMEOVER).
Proof.
  assert (Hhit : forall tip g,
             streak (register_hit false tip g) = 0 /\
             lives (register_hit false tip g) = lives g - 1 /\
             (lives (register_hit false tip g) <= 0 ->
              state (register_hit false tip g) = GAMEOVER)).
  { intros tip g. destruct (register_hit_false_fields tip g) as (_ & _ & Hl & Hk & Hst & _).
    rewrite Hl, Hk, Hst. repeat split.
    intros H. apply Z.leb_le in H. now rewrite H. }
  split; [|split; [exact Hhit|split; [|split]]].
  - intros g. cbv zeta.
    destruct (register_miss_fields g) as (_ & _ & Hl & _ & Hk & Hst & _).
    rewrite Hl, Hk, Hst. repeat split.
    intros H. apply Z.leb_le in H. now rewrite H.
  - intros pos g pre it post b Hs Hd Hf Hc. cbv zeta.
    rewrite (handle_mouse_up_placed pos g pre it post b Hs Hd Hf).
    apply String.eqb_neq in Hc. rewrite Hc.
    destruct (Hhit (drop_tip false (Item.set_dragging false it))
                (set_items
                   (list_remove (Item.set_dragging false it)
                      (pre ++ Item.set_dragging false it :: post)) g))
      as (Hk & Hl & Hst).
    cbn [lives set_items] in Hl, Hst.
    split; [exact Hk|]. split; [exact Hl|]. split; [exact Hst|].
    intros H1. split; [lia | apply Hst; lia].
  - intros dt r g Hp fs l Hn. cbv zeta.
    destruct (update_lives dt r g Hp) as (_ & _ & Hl & Hk & Hst).
    cbv zeta in Hl, Hk, Hst. fold fs l in Hl, Hk, Hst.
    split; [|split; [exact Hl | exact (Hst Hn)]].
    rewrite Hk. destruct (dropped fs l); [contradiction | reflexivity].
  - vm_compute. repeat split.
Qed.

(** C3 at the third battery held over the Paper bin with one life left, and
    at the frame in which two batteries leave the screen. *)
Lemma wrong_drop_or_miss_costs_life_witness :
  (lives (handle_mouse_up (100, 560) last_life) = 0 /\
   state (handle_mouse_up (100, 560) last_life) = GAMEOVER) /\
  (streak (update (1 # 60) battery_draw on_the_brink) = 0 /\
   lives (update (1 # 60) battery_draw on_the_brink) = lives on_the_brink - 2).
Proof.
  split.
  - edestruct (proj1 (proj2 (proj2 wrong_drop_or_miss_costs_life))
                 (100, 560) last_life) as (_ & _ & _ & H);
      [reflexivity | reflexivity | reflexivity | vm_compute; discriminate
      | apply H; reflexivity].
  - assert (Hd : dropped (row_fall_speed (LEVELS_at (level on_the_brink)))
                   (items (spawn_tick
                             (row_spawn_interval (LEVELS_at (level on_the_brink)))
                             battery_draw on_the_brink)) = 2%nat)
      by (vm_compute; reflexivity).
    destruct (proj1 (proj2 (proj2 (proj2 wrong_drop_or_miss_costs_life)))
                (1 # 60)%Q battery_draw on_the_brink eq_refl) as (Hk & Hl & _).
    + rewrite Hd. discriminate.
    + rewrite Hd in Hl. split; [exact Hk | exact Hl].
Defined.

(** ** Reachable states *)

Lemma handle_mouse_down_fields pos g :
  score (handle_mouse_down pos g) = score g /\ lives (handle_mouse_down pos g) = lives g /\
  level (handle_mouse_down pos g) = level g /\ streak (handle_mouse_down pos g) = streak g /\
  state (handle_mouse_down pos g) = state g /\
  level_target (handle_mouse_down pos g) = level_target g /\
  hiscore (handle_mouse_down pos g) = hiscore g /\
  hiscore_file (handle_mouse_down pos g) = hiscore_file g /\
  log (handle_mouse_down pos g) = log g.
Proof.
  unfold handle_mouse_down. destruct (state g) eqn:E; cbn; rewrite ?E; repeat split.
Qed.

Lemma handle_mouse_motion_fields pos g :
  score (handle_mouse_motion pos g) = score g /\ lives (handle_mouse_motion pos g) = lives g /\
  level (handle_mouse_motion pos g) = level g /\ streak (handle_mouse_motion pos g) = streak g /\
  state (handle_mouse_motion pos g) = state g /\
  level_target (handle_mouse_motion pos g) = level_target g /\
  hiscore (handle_mouse_motion pos g) = hiscore g /\
  hiscore_file (handle_mouse_motion pos g) = hiscore_file g /\
  log (handle_mouse_motion pos g) = log g.
Proof.
  unfold handle_mouse_motion. destruct pos as [mx my].
  destruct (state g) eqn:E; cbn; rewrite ?E; repeat split.
Qed.

Lemma register_hit_round_ok c tip g : round_ok g -> round_ok (register_hit c tip g).
Proof.
  unfold round_ok. intros (Hv & Hg & Hk & Hs & Hl).
  destruct c.
  - destruct (register_hit_true_fields tip g) as (_ & Hs1 & Hl1 & Hk1 & _ & Hv1 & Hg1).
    rewrite Hs1, Hl1, Hk1, Hv1, Hg1. repeat split; try assumption; lia.
  - destruct (register_hit_false_fields tip g) as (_ & Hs1 & Hl1 & Hk1 & _ & Hv1 & Hg1).
    rewrite Hs1, Hl1, Hk1, Hv1, Hg1. repeat split; try assumption; lia.
Qed.

Lemma set_items_round_ok l g : round_ok g -> round_ok (set_items l g).
Proof. exact (fun H => H). Qed.

Lemma handle_mouse_up_round_ok pos g : round_ok g -> round_ok (handle_mouse_up pos g).
Proof.
  intros H. unfold handle_mouse_up.
  destruct (state g); try assumption.
  destruct (split_dragged (items g)) as [[[pre it] post]|]; [|assumption].
  cbn [bins set_items items].
  destruct (find _ (bins g)); [|assumption].
  apply register_hit_round_ok. assumption.
Qed.

Lemma LEVELS_at_target n : 0 <= row_target (LEVELS_at n).
Proof. do 6 (destruct n as [|n]; [cbn; lia|]). cbn. lia. Qed.

(** What the level timer does to the level, by cases. *)
Lemma level_tick_level dt g :
  let expired := Qle_bool (level_time_left g - dt)%num 0 in
  let advance :=
    (level_target g <=? score g) && (level g <? List.length LEVELS - 1)%nat in
  let g' := level_tick dt g in
  (expired = true -> advance = true ->
   level g' = (level g + 1)%nat /\
   level_time_left g' = row_duration (LEVELS_at (level g + 1)) /\
   level_target g' = row_target (LEVELS_at (level g + 1)) /\
   state g' = state g) /\
  (expired = true -> advance = false ->
   state g' = GAMEOVER /\ level g' = level g /\ level_target g' = level_target g) /\
  (expired = false ->
   level g' = level g /\ level_time_left g' = (level_time_left g - dt)%num /\
   level_target g' = level_target g /\ state g' = state g).
Proof.
  cbv zeta. unfold level_tick. gsimpl.
  destruct (Qle_bool (level_time_left g - dt)%num 0);
    [destruct (_ && _)|]; (split; [|split]); try discriminate; intros _; try intros _.
  - match goal with
    | |- context [play_sfx ?s ?h] =>
        destruct (play_sfx_fields s h)
          as (_ & _ & _ & _ & Hv & _ & Hst & _ & Ht & Hg);
        rewrite Hv, Hst, Ht, Hg
    end.
    gsimpl. repeat split.
  - match goal with
    | |- context [game_over ?h] =>
        destruct (game_over_fields h) as (_ & _ & _ & Hv & _ & Hst & _ & Hg);
        rewrite Hv, Hst, Hg
    end.
    gsimpl. repeat split.
  - repeat split.
Qed.

Lemma level_tick_round_ok dt g : round_ok g -> round_ok (level_tick dt g).
Proof.
  unfold round_ok. intros (Hv & Hg & Hk & Hs & Hl).
  destruct (level_tick_fields dt g) as (_ & Hs' & Hl' & Hk' & _).
  rewrite Hs', Hl', Hk'.
  destruct (level_tick_level dt g) as (Hup & Hover & Hrun). cbv zeta in *.
  destruct (Qle_bool (level_time_left g - dt)%num 0).
  - destruct (level_target g <=? score g); cbn [andb] in *.
    + destruct (level g <? List.length LEVELS - 1)%nat eqn:E.
      * destruct (Hup eq_refl eq_refl) as (-> & _ & -> & _).
        apply Nat.ltb_lt in E. repeat split; try assumption. lia.
      * destruct (Hover eq_refl eq_refl) as (_ & -> & ->).
        repeat split; assumption.
    + destruct (Hover eq_refl eq_refl) as (_ & -> & ->).
      repeat split; assumption.
  - destruct (Hrun eq_refl) as (-> & _ & -> & _). repeat split; assumption.
Qed.

Lemma before_level_tick_round_ok dt r g : round_ok g -> round_ok (before_level_tick dt r g).
Proof.
  unfold round_ok. intros (Hv & Hg & Hk & Hs & Hl).
  destruct (before_level_tick_fields dt r g) as (_ & Hs' & Hl' & Hv' & _ & Hg' & Hk').
  cbv zeta in *. rewrite Hs', Hl', Hv', Hg', Hk'.
  repeat split; try assumption; [destruct (dropped _ _); lia | lia].
Qed.

Lemma update_round_ok dt r g : round_ok g -> round_ok (update dt r g).
Proof.
  intros H. destruct (State_eqb (state g) PLAYING) eqn:E.
  - rewrite update_playing by (destruct (state g); (reflexivity || discriminate)).
    now apply level_tick_round_ok, before_level_tick_round_ok.
  - rewrite update_not_playing; [assumption|]. intros Hp. rewrite Hp in E. discriminate.
Qed.

Lemma reset_round_ok full g : round_ok (reset full g).
Proof. unfold round_ok. cbn. repeat split; lia. Qed.

Lemma handle_event_round_ok ev running g :
  round_ok g -> round_ok (snd (handle_event ev (running, g))).
Proof.
  intros H. destruct ev as [|key|button pos|button pos|pos|]; cbn; try assumption.
  - destruct key, (state g); cbn; try assumption. apply (reset_round_ok false).
  - destruct (button =? 1); cbn; [|assumption].
    destruct (handle_mouse_down_fields pos g) as (Hs & Hl & Hv & Hk & _ & Hg & _).
    unfold round_ok. rewrite Hs, Hl, Hv, Hk, Hg. exact H.
  - destruct (button =? 1); cbn; [|assumption]. now apply handle_mouse_up_round_ok.
  - destruct (handle_mouse_motion_fields pos g) as (Hs & Hl & Hv & Hk & _ & Hg & _).
    unfold round_ok. rewrite Hs, Hl, Hv, Hk, Hg. exact H.
Qed.

(** Every state of a session has its level inside [LEVELS], the target of
    that level, a streak and a score that are not negative, and no more
    lives than a round starts with. *)
Lemma reachable_round_ok g : reachable g -> round_ok g.
Proof.
  induction 1 as [e | ev running g _ IH | dt r g _ IH _].
  - apply (reset_round_ok true).
  - now apply handle_event_round_ok.
  - now apply update_round_ok.
Qed.

Lemma handle_events_reachable evs : forall running g,
  reachable g ->
  reachable (snd (fold_left (fun rg ev => handle_event ev rg) evs (running, g))).
Proof.
  induction evs as [|ev evs IH]; intros running g H; cbn [fold_left]; [exact H|].
  destruct (handle_event ev (running, g)) as [running' g'] eqn:E.
  apply IH. change g' with (snd (running', g')). rewrite <- E. now constructor.
Qed.

Lemma frame_reachable f g : reachable g -> reachable (snd (frame f g)).
Proof.
  intros H. unfold frame.
  pose proof (handle_events_reachable (events f) true g H) as H'.
  destruct (fold_left _ (events f) (true, g)) as [running g1]. cbn [snd] in H'.
  destruct (state g1) eqn:E; cbn [snd]; try assumption.
  now constructor.
Qed.

Lemma run_reachable fs : forall g, reachable g -> reachable (run fs g).
Proof.
  induction fs as [|f fs IH]; intros g H; cbn [run]; [exact H|].
  pose proof (frame_reachable f g H) as H'.
  destruct (frame f g) as [running g1]. cbn [snd] in H'.
  destruct running; [now apply IH | exact H'].
Qed.

(** ** Level progression *)

(** C5.  In an [update] while PLAYING whose decrement brings
    [level_time_left] to 0 or below: when the score is at least the target
    of the current level ([>=], so meeting it exactly is enough) and the
    level is not the last, the level goes up by exactly one and the time
    and the target are those of the new level's row; otherwise the state is
    GAMEOVER when that [update] returns, and the level stays.  When the
    timer has not run out, the level and its target stay. *)
Theorem level_timer_expiry dt r g :
  reachable g ->
  state g = PLAYING ->
  let g' := update dt r g in
  let target := row_target (LEVELS_at (level g)) in
  (Qle_bool (level_time_left g - dt)%num 0 = true ->
   if (target <=? score g) && (level g <? List.length LEVELS - 1)%nat then
     level g' = (level g + 1)%nat /\
     level_time_left g' = row_duration (LEVELS_at (level g')) /\
     level_target g' = row_target (LEVELS_at (level g')) /\
     (level g' < List.length LEVELS)%nat
   else
     state g' = GAMEOVER /\ level g' = level g) /\
  (Qle_bool (level_time_left g - dt)%num 0 = false ->
   level g' = level g /\ level_target g' = target /\
   level_time_left g' = (level_time_left g - dt)%num).
Proof.
  intros Hr Hp. cbv zeta.
  destruct (reachable_round_ok g Hr) as (Hv & Hg & _).
  rewrite (update_playing _ _ _ Hp).
  destruct (before_level_tick_fields dt r g) as (_ & Hs & _ & Hv' & Ht & Hg' & _).
  cbv zeta in Hs, Hv', Ht, Hg'.
  destruct (level_tick_level dt (before_level_tick dt r g)) as (Hup & Hover & Hrun).
  cbv zeta in Hup, Hover, Hrun. rewrite Hs, Hv', Ht, Hg' in *. rewrite <- Hg.
  split; intros He.
  - destruct (_ && _) eqn:E.
    + destruct (Hup He eq_refl) as (Hl & Htl & Htg & _).
      rewrite Hl. repeat split; try assumption.
      apply andb_prop in E. destruct E as [_ E]. apply Nat.ltb_lt in E. lia.
    + destruct (Hover He eq_refl) as (Hst & Hl & _). split; assumption.
  - destruct (Hrun He) as (Hl & Htl & Htg & _). repeat split; assumption.
Qed.

(** C5 at the first update of a session when a whole minute has passed:
    the target of 200 is not met, the game is over. *)
Lemma level_timer_expiry_witness :
  state (update 60%Q battery_draw just_started) = GAMEOVER /\
  level (update 60%Q battery_draw just_started) = level just_started.
Proof.
  assert (Hr : reachable just_started) by (apply reach_event, reach_init).
  destruct (level_timer_expiry 60%Q battery_draw just_started Hr eq_refl) as [H _].
  exact (H eq_refl).
Defined.

(** C10.  One [update] while PLAYING keeps exactly the items that, once
    moved, have not passed the bottom threshold, and takes one life for
    each of the others, whatever the state has become in between: the lives
    end at [lives - k] for [k] fallen items, below 0 when [lives < k].
    The session [to_the_brink] reaches a state with one life in which the
    next update drops two items: it ends with -1 lives. *)
Theorem every_fallen_item_costs_a_life :
  (forall dt r g,
     state g = PLAYING ->
     let fs := row_fall_speed (LEVELS_at (level g)) in
     let l := items (spawn_tick (row_spawn_interval (LEVELS_at (level g))) r g) in
     let k := Z.of_nat (List.length (filter fell_off (map (Item.update fs) l))) in
     let g' := update dt r g in
     items g' = filter (fun it => negb (fell_off it)) (map (Item.update fs) l) /\
     Forall (fun it => fell_off it = false) (items g') /\
     lives g' = lives g - k /\
     (lives g < k -> lives g' < 0)) /\
  (forall k g, lives (misses k g) = lives g - Z.of_nat k) /\
  (reachable on_the_brink /\ state on_the_brink = PLAYING /\
   lives on_the_brink = 1 /\ List.length (items on_the_brink) = 2%nat /\
   let g' := update (1 # 60) battery_draw on_the_brink in
   items g' = [] /\ lives g' = -1 /\ state g' = GAMEOVER).
Proof.
  split; [|split].
  - intros dt r g Hp. cbv zeta.
    destruct (update_lives dt r g Hp) as (Hi & _ & Hl & _). cbv zeta in Hi, Hl.
    unfold kept in Hi. unfold dropped in Hl. rewrite Hi, Hl.
    repeat split; [|lia].
    apply Forall_forall. intros it Hin. apply filter_In in Hin.
    destruct Hin as [_ Hin]. now apply negb_true_iff in Hin.
  - intros k g. now destruct (misses_fields k g) as (_ & H & _).
  - split; [rewrite <- on_the_brink_reached; apply run_reachable, reach_init|].
    vm_compute. repeat split.
Qed.

Lemma every_fallen_item_costs_a_life_witness :
  lives (update (1 # 60) battery_draw on_the_brink) < 0.
Proof.
  apply (proj1 every_fallen_item_costs_a_life (1 # 60)%Q battery_draw on_the_brink eq_refl).
  vm_compute. reflexivity.
Defined.

(** ** Restart and the high score *)

(** C7.  [reset(full=False)], and so the R key at the game-over screen,
    sets score 0, lives [LIVES_START], streak 0, level 0 and an empty item
    list, and leaves the game PLAYING.  It reads the high-score file and
    does not write it: the file is as before and the only effect logged is
    the read.  In any other state the R key does nothing. *)
Theorem restart_resets_round :
  (forall g,
     let g' := reset false g in
     score g' = 0 /\ lives g' = LIVES_START /\ streak g' = 0 /\ level g' = O /\
     items g' = [] /\ state g' = PLAYING /\
     hiscore_file g' = hiscore_file g /\ log g' = log g ++ [LoadedHiscore]) /\
  (forall running g,
     let g' := snd (handle_event (KEYDOWN K_r) (running, g)) in
     match state g with
     | GAMEOVER =>
         score g' = 0 /\ lives g' = LIVES_START /\ streak g' = 0 /\ level g' = O /\
         items g' = [] /\ state g' = PLAYING /\
         hiscore_file g' = hiscore_file g /\ log g' = log g ++ [LoadedHiscore]
     | _ => g' = g
     end) /\
  (let g := run one_round (init env0) in
   let g' := run (one_round ++ [restart]) (init env0) in
   state g = GAMEOVER /\ score g = 55 /\ hiscore_file g = Holds 55 /\
   state g' = PLAYING /\ score g' = 0 /\ lives g' = 3 /\ streak g' = 0 /\
   level g' = O /\ hiscore_file g' = Holds 55).
Proof.
  split; [|split].
  - intros g. cbn. repeat split.
  - intros running g. cbn. destruct (state g); cbn; repeat split.
  - vm_compute. repeat split.
Qed.

Lemma game_over_hiscore g :
  let g' := game_over g in
  state g' = GAMEOVER /\
  if hiscore g <? score g then
    hiscore g' = score g /\ log g' = log g ++ [SavedHiscore (score g)] /\
    hiscore_file g' = (if fs_writable g then Holds (score g) else hiscore_file g)
  else
    hiscore g' = hiscore g /\ log g' = log g /\ hiscore_file g' = hiscore_file g.
Proof.
  cbv zeta. unfold game_over, save_hiscore. cbn.
  destruct (hiscore g <? score g); cbn; repeat split.
Qed.

Lemma loads_app_other g l :
  forallb (fun e => negb (is_load e)) l = true ->
  filter is_load (log g ++ l) = loads g.
Proof.
  intros H. unfold loads. rewrite filter_app.
  assert (E : filter is_load l = []).
  { induction l as [|e l IH]; [reflexivity|]. cbn in *.
    apply andb_prop in H. destruct H as [He Hl].
    apply negb_true_iff in He. rewrite He. auto. }
  rewrite E. apply app_nil_r.
Qed.

Lemma play_sfx_loads snd g : loads (play_sfx snd g) = loads g.
Proof.
  unfold play_sfx. destruct snd as [s|]; [destruct (muted g)|]; try reflexivity.
  unfold loads at 1. cbn [log set_log]. now rewrite loads_app_other.
Qed.

Lemma game_over_loads g : loads (game_over g) = loads g.
Proof.
  unfold game_over. cbn. destruct (hiscore g <? score g); [|reflexivity].
  unfold loads at 1. cbn [log set_hiscore set_log]. now rewrite loads_app_other.
Qed.

Lemma register_miss_loads g : loads (register_miss g) = loads g.
Proof.
  unfold register_miss. cbn. destruct (lives g - 1 <=? 0); [|reflexivity].
  now rewrite game_over_loads.
Qed.

Lemma register_hit_loads c tip g : loads (register_hit c tip g) = loads g.
Proof.
  unfold register_hit. destruct c; rewrite play_sfx_loads.
  - reflexivity.
  - exact (register_miss_loads g).
Qed.

Lemma misses_loads k g : loads (misses k g) = loads g.
Proof.
  unfold misses. induction k as [|k IH]; [reflexivity|].
  now rewrite Nat.iter_succ, register_miss_loads.
Qed.

Lemma update_loads dt r g : loads (update dt r g) = loads g.
Proof.
  unfold update. destruct (state g); try reflexivity.
  set (row := LEVELS_at (level g)).
  assert (H1 : loads (spawn_tick (row_spawn_interval row) r g) = loads g).
  { unfold spawn_tick. destruct (_ <=? _); [|reflexivity].
    destruct (spawn_item_items r
                (set_frames_since_spawn 0
                   (set_frames_since_spawn (frames_since_spawn g + 1) g)))
      as (it & -> & _). reflexivity. }
  set (g1 := spawn_tick _ r g) in *.
  rewrite update_items_spec by constructor.
  set (g2 := set_items _ _).
  assert (H2 : loads g2 = loads g).
  { subst g2. unfold loads at 1. cbn [log set_items].
    fold (loads (misses (dropped (row_fall_speed row) (items g1)) g1)).
    now rewrite misses_loads. }
  assert (H3 : loads (tip_tick dt g2) = loads g).
  { unfold tip_tick. destruct (Qltb 0 (tip_timer g2)); [|exact H2].
    cbn. destruct (Qle_bool _ 0); exact H2. }
  set (g3 := tip_tick dt g2) in *.
  unfold level_tick. gsimpl.
  destruct (Qle_bool _ 0); [|exact H3].
  destruct (_ && _).
  - rewrite play_sfx_loads. exact H3.
  - rewrite game_over_loads. exact H3.
Qed.

Lemma handle_event_loads ev running g :
  loads (snd (handle_event ev (running, g))) =
  loads g ++
  match ev, state g with
  | KEYDOWN K_r, GAMEOVER => [LoadedHiscore]
  | _, _ => []
  end.
Proof.
  destruct ev as [|key|button pos|button pos|pos|]; cbn [handle_event snd];
    rewrite ?app_nil_r; try reflexivity.
  - destruct key, (state g); cbn [snd]; rewrite ?app_nil_r; try reflexivity.
    unfold loads. cbn [log set_state reset]. rewrite filter_app. reflexivity.
  - destruct (button =? 1); cbn [snd]; [|reflexivity].
    unfold loads. now destruct (handle_mouse_down_fields pos g) as (_&_&_&_&_&_&_&_& ->).
  - destruct (button =? 1); cbn [snd]; [|reflexivity].
    unfold handle_mouse_up. destruct (state g); try reflexivity.
    destruct (split_dragged (items g)) as [[[pre it] post]|]; [|reflexivity].
    cbn [bins set_items items]. destruct (find _ (bins g)); [|reflexivity].
    now rewrite register_hit_loads.
  - unfold loads. now destruct (handle_mouse_motion_fields pos g) as (_&_&_&_&_&_&_&_& ->).
Qed.

(** C8, as stated, fails in its last sentence: the file is read again by
    every restart.  The session [one_round] followed by R has two reads on
    its log; and on a disk that cannot be written the high score of 55 held
    in memory at the end of the round is replaced by what the file gives,
    0, when the game restarts. *)
Lemma hiscore_read_once_counterexample :
  loads (run (one_round ++ [restart]) (init env0)) = [LoadedHiscore; LoadedHiscore] /\
  hiscore (run one_round (init env_readonly)) = 55 /\
  hiscore (run (one_round ++ [restart]) (init env_readonly)) = 0.
Proof. vm_compute. repeat split. Qed.

(** C8, amended.  [game_over] sets the state to GAMEOVER; exactly when the
    score is greater than the high score held in memory it issues one write
    of the score (which changes the file unless the write fails) and sets
    the high score in memory to the score; otherwise file, log and memory
    stay as they are.  [load_hiscore] gives 0 for an absent or corrupt file.
    The file is read once when the session starts and once more by every
    restart, and by nothing else. *)
Theorem game_over_records_high_score :
  (forall g,
     let g' := game_over g in
     state g' = GAMEOVER /\
     if hiscore g <? score g then
       hiscore g' = score g /\ log g' = log g ++ [SavedHiscore (score g)] /\
       hiscore_file g' = (if fs_writable g then Holds (score g) else hiscore_file g)
     else
       hiscore g' = hiscore g /\ log g' = log g /\ hiscore_file g' = hiscore_file g) /\
  (load_hiscore Absent = 0 /\ load_hiscore Corrupt = 0 /\
   forall v, load_hiscore (Holds v) = v) /\
  (forall e, log (init e) = [LoadedHiscore] /\ hiscore (init e) = load_hiscore (disk e)) /\
  (forall full g,
     log (reset full g) = log g ++ [LoadedHiscore] /\
     hiscore (reset full g) = load_hiscore (hiscore_file g)) /\
  (forall ev running g,
     loads (snd (handle_event ev (running, g))) =
     loads g ++
     match ev, state g with
     | KEYDOWN K_r, GAMEOVER => [LoadedHiscore]
     | _, _ => []
     end) /\
  (forall dt r g, loads (update dt r g) = loads g).
Proof.
  split; [exact game_over_hiscore|].
  split; [repeat split|].
  split; [intros e; split; reflexivity|].
  split; [intros full g; split; reflexivity|].
  split; [exact handle_event_loads | exact update_loads].
Qed.

(** ** Drop resolution *)

(** For rectangles with positive sides, [colliderect] says that the
    overlap has positive width and positive height. *)
Lemma colliderect_overlap a b :
  0 < Rect.w a -> 0 < Rect.h a -> 0 < Rect.w b -> 0 < Rect.h b ->
  Rect.colliderect a b = true <->
  Z.max (Rect.x a) (Rect.x b) < Z.min (Rect.x a + Rect.w a) (Rect.x b + Rect.w b) /\
  Z.max (Rect.y a) (Rect.y b) < Z.min (Rect.y a + Rect.h a) (Rect.y b + Rect.h b).
Proof.
  intros Hwa Hha Hwb Hhb. unfold Rect.colliderect.
  destruct (Rect.w a =? 0) eqn:E1; [apply Z.eqb_eq in E1; lia|].
  destruct (Rect.h a =? 0) eqn:E2; [apply Z.eqb_eq in E2; lia|].
  destruct (Rect.w b =? 0) eqn:E3; [apply Z.eqb_eq in E3; lia|].
  destruct (Rect.h b =? 0) eqn:E4; [apply Z.eqb_eq in E4; lia|].
  cbn [orb]. rewrite !andb_true_iff, !Z.ltb_lt, !Z.gtb_lt. lia.
Qed.

(** [find] returns the first element in list order that passes the test. *)
Lemma find_first {A} (p : A -> bool) l b :
  find p l = Some b ->
  exists l1 l2, l = l1 ++ b :: l2 /\ p b = true /\ Forall (fun a => p a = false) l1.
Proof.
  induction l as [|a l IH]; cbn; [discriminate|].
  destruct (p a) eqn:E.
  - intros [= <-]. exists [], l. repeat split; [assumption | constructor].
  - intros H. destruct (IH H) as (l1 & l2 & -> & Hb & Hl).
    exists (a :: l1), l2. repeat split; [assumption | now constructor].
Qed.

Lemma find_none {A} (p : A -> bool) l :
  find p l = None -> Forall (fun a => p a = false) l.
Proof.
  induction l as [|a l IH]; cbn; [constructor|].
  destruct (p a) eqn:E; [discriminate|]. intros H. constructor; auto.
Qed.

(** [list.remove] takes out one element equal to its argument, the first. *)
Lemma list_remove_found it l :
  existsb (fun a => Item.eqb a it) l = true ->
  exists l1 r l2,
    l = l1 ++ r :: l2 /\ Item.eqb r it = true /\
    Forall (fun a => Item.eqb a it = false) l1 /\
    list_remove it l = l1 ++ l2.
Proof.
  induction l as [|a l IH]; cbn; [discriminate|].
  destruct (Item.eqb a it) eqn:E; cbn.
  - intros _. exists [], a, l. repeat split; [assumption | constructor].
  - intros H. destruct (IH H) as (l1 & r & l2 & -> & Hr & Hl & ->).
    exists (a :: l1), r, l2. repeat split; [assumption | now constructor].
Qed.

Lemma list_remove_here it pre post :
  Forall (fun a => Item.eqb a it = false) pre ->
  list_remove it (pre ++ it :: post) = pre ++ post.
Proof.
  induction 1 as [|a pre Ha _ IH]; cbn.
  - now rewrite Item_eqb_refl.
  - now rewrite Ha, IH.
Qed.

(** C4, as stated, fails when the release arrives while the game is not
    PLAYING: with the battery grabbed and the game paused, the release over
    no bin leaves the item dragged. *)
Lemma release_while_paused_counterexample :
  let g := paused_mid_drag in
  let g' := handle_mouse_up (510, 0) g in
  state g = PAUSE /\
  map Item.dragging (items g) = [true] /\
  map (fun it => find (overlaps it) (bins g)) (items g) = [None] /\
  map Item.dragging (items g') = [true] /\
  map Item.dragging
    (items (run (opening ++
                 [mkFrame (1 # 60)
                    [MOUSEBUTTONDOWN 1 (510, 0); KEYDOWN K_p; MOUSEBUTTONUP 1 (510, 0)]
                    battery_draw]) (init env0))) = [true].
Proof. vm_compute. repeat split. Qed.

(** A release while PLAYING with a dragged item, by cases on the first
    bin that overlaps it. *)
Lemma handle_mouse_up_cases pos g pre it post :
  state g = PLAYING ->
  split_dragged (items g) = Some (pre, it, post) ->
  let it' := Item.set_dragging false it in
  let g' := handle_mouse_up pos g in
  items g = pre ++ it :: post /\ Item.dragging it = true /\
  Forall (fun a => Item.dragging a = false) pre /\
  match find (overlaps it) (bins g) with
  | Some b =>
      (exists bs1 bs2,
         bins g = bs1 ++ b :: bs2 /\ overlaps it b = true /\
         Forall (fun a => overlaps it a = false) bs1) /\
      (exists l1 r l2,
         pre ++ it' :: post = l1 ++ r :: l2 /\ Item.eqb r it' = true /\
         Forall (fun a => Item.eqb a it' = false) l1 /\
         items g' = l1 ++ l2) /\
      (Forall (fun a => Item.eqb a it' = false) pre -> items g' = pre ++ post) /\
      (exists correct,
         (correct = true <-> Item.category it = Bin.label b) /\
         g' = register_hit correct (drop_tip correct it')
                (set_items (list_remove it' (pre ++ it' :: post)) g))
  | None =>
      Forall (fun a => overlaps it a = false) (bins g) /\
      g' = set_items (pre ++ it' :: post) g /\
      Item.dragging it' = false /\
      Item.name it' = Item.name it /\ Item.category it' = Item.category it /\
      Item.tip it' = Item.tip it /\
      score g' = score g /\ lives g' = lives g /\ streak g' = streak g /\
      state g' = state g
  end.
Proof.
  intros Hs Hd. cbv zeta.
  destruct (split_dragged_some _ _ _ _ Hd) as (Hi & Hdr & Hpre).
  split; [exact Hi|]. split; [exact Hdr|]. split; [exact Hpre|].
  destruct (find (overlaps it) (bins g)) as [b|] eqn:Hf.
  - rewrite (handle_mouse_up_placed pos g pre it post b Hs Hd Hf). cbv zeta.
    set (it' := Item.set_dragging false it).
    set (c := String.eqb (Item.category it) (Bin.label b)).
    assert (Hit : items (register_hit c (drop_tip c it')
                           (set_items (list_remove it' (pre ++ it' :: post)) g)) =
                  list_remove it' (pre ++ it' :: post)).
    { destruct c.
      - now destruct (register_hit_true_fields (drop_tip true it')
                        (set_items (list_remove it' (pre ++ it' :: post)) g)) as (-> & _).
      - now destruct (register_hit_false_fields (drop_tip false it')
                        (set_items (list_remove it' (pre ++ it' :: post)) g)) as (-> & _). }
    rewrite Hit.
    split; [exact (find_first _ _ _ Hf)|].
    split; [|split].
    + apply list_remove_found. rewrite existsb_app. cbn.
      rewrite Item_eqb_refl. now rewrite orb_true_r.
    + intros Hne. now apply list_remove_here.
    + exists c. split; [apply String.eqb_eq | reflexivity].
  - rewrite (handle_mouse_up_not_placed pos g pre it post Hs Hd Hf).
    split; [exact (find_none _ _ Hf)|]. repeat split.
Qed.

Lemma handle_mouse_up_not_playing pos g :
  state g <> PLAYING -> handle_mouse_up pos g = g.
Proof. intros Hs. unfold handle_mouse_up. destruct (state g); congruence. Qed.

Lemma handle_mouse_up_none_dragged pos g :
  split_dragged (items g) = None -> handle_mouse_up pos g = g.
Proof. intros Hd. unfold handle_mouse_up. rewrite Hd. now destruct (state g). Qed.

(** C4, amended.  A release while PLAYING looks at the first dragged item
    of the list and tries the bins in list order; the first whose rectangle
    overlaps the item's wins.  If there is one, an item equal to the
    un-dragged object leaves the list (the object itself when no equal item
    precedes it) and the drop goes to [register_hit] as correct exactly when
    the item's category is the bin's label.  If there is none, the list is
    the same but for the cleared flag, with name, category and tip as they
    were, and score, lives, streak and state do not change.  While the game
    is not PLAYING, or when no item is dragged, the release does nothing. *)
Theorem release_resolves_drop :
  (forall pos g pre it post,
     state g = PLAYING ->
     split_dragged (items g) = Some (pre, it, post) ->
     let it' := Item.set_dragging false it in
     let g' := handle_mouse_up pos g in
     items g = pre ++ it :: post /\ Item.dragging it = true /\
     Forall (fun a => Item.dragging a = false) pre /\
     match find (overlaps it) (bins g) with
     | Some b =>
         (exists bs1 bs2,
            bins g = bs1 ++ b :: bs2 /\ overlaps it b = true /\
            Forall (fun a => overlaps it a = false) bs1) /\
         (exists l1 r l2,
            pre ++ it' :: post = l1 ++ r :: l2 /\ Item.eqb r it' = true /\
            Forall (fun a => Item.eqb a it' = false) l1 /\
            items g' = l1 ++ l2) /\
         (Forall (fun a => Item.eqb a it' = false) pre -> items g' = pre ++ post) /\
         (exists correct,
            (correct = true <-> Item.category it = Bin.label b) /\
            g' = register_hit correct (drop_tip correct it')
                   (set_items (list_remove it' (pre ++ it' :: post)) g))
     | None =>
         Forall (fun a => overlaps it a = false) (bins g) /\
         g' = set_items (pre ++ it' :: post) g /\
         Item.dragging it' = false /\
         Item.name it' = Item.name it /\ Item.category it' = Item.category it /\
         Item.tip it' = Item.tip it /\
         score g' = score g /\ lives g' = lives g /\ streak g' = streak g /\
         state g' = state g
     end) /\
  (forall pos g, state g <> PLAYING -> handle_mouse_up pos g = g) /\
  (forall pos g, split_dragged (items g) = None -> handle_mouse_up pos g = g) /\
  (forall it b,
     0 < Item.w it -> 0 < Item.h it -> 0 < Rect.w (Bin.rect b) -> 0 < Rect.h (Bin.rect b) ->
     let ri := Item.rect it in
     let rb := Bin.rect b in
     overlaps it b = true <->
     Z.max (Rect.x rb) (Rect.x ri) < Z.min (Rect.x rb + Rect.w rb) (Rect.x ri + Rect.w ri) /\
     Z.max (Rect.y rb) (Rect.y ri) < Z.min (Rect.y rb + Rect.h rb) (Rect.y ri + Rect.h ri)).
Proof.
  split; [exact handle_mouse_up_cases|].
  split; [exact handle_mouse_up_not_playing|].
  split; [exact handle_mouse_up_none_dragged|].
  intros it b Hw Hh Hbw Hbh. cbv zeta. unfold overlaps.
  now apply colliderect_overlap.
Qed.

(** C4 at the battery held over the E-Waste bin (placed) and at the battery
    grabbed at the top of the screen (released over no bin). *)
Lemma release_resolves_drop_witness :
  items (handle_mouse_up (900, 560) carrying_battery) = [] /\
  (score (handle_mouse_up (510, 0) grabbed_at_top) = score grabbed_at_top /\
   lives (handle_mouse_up (510, 0) grabbed_at_top) = lives grabbed_at_top /\
   streak (handle_mouse_up (510, 0) grabbed_at_top) = streak grabbed_at_top).
Proof.
  split.
  - edestruct (proj1 release_resolves_drop (900, 560) carrying_battery)
      as (_ & _ & _ & H); [reflexivity | reflexivity |].
    vm_compute in H. destruct H as (_ & _ & H & _). exact (H (Forall_nil _)).
  - edestruct (proj1 release_resolves_drop (510, 0) grabbed_at_top)
      as (_ & _ & _ & H); [reflexivity | reflexivity |].
    change (find _ (bins grabbed_at_top)) with (@None Bin.t) in H.
    destruct H as (_ & _ & _ & _ & _ & _ & Hs & Hl & Hk & _).
    repeat split; assumption.
Defined.

(** ** Dragging *)

Lemma grab_first_Forall2 pos l : Forall2 (grabbed_or_same pos) l (grab_first pos l).
Proof.
  induction l as [|it l IH]; cbn [grab_first]; [constructor|].
  destruct (Rect.collidepoint (Item.rect it) pos) eqn:E.
  - destruct pos as [mx my]. constructor.
    + right. cbn. repeat split. exact E.
    + clear. induction l; constructor; [now left | assumption].
  - constructor; [now left | assumption].
Qed.

Lemma Forall2_rev {A B} (R : A -> B -> Prop) l l' :
  Forall2 R l l' -> Forall2 R (rev l) (rev l').
Proof.
  induction 1 as [|a b l l' Hab _ IH]; cbn; [constructor|].
  apply Forall2_app; [assumption | constructor; [assumption | constructor]].
Qed.

Lemma handle_mouse_down_items pos g :
  state g = PLAYING ->
  Forall2 (grabbed_or_same pos) (items g) (items (handle_mouse_down pos g)).
Proof.
  intros Hs. unfold handle_mouse_down. rewrite Hs. cbn [items set_items].
  rewrite <- (rev_involutive (items g)) at 1.
  apply Forall2_rev, grab_first_Forall2.
Qed.

Lemma handle_mouse_motion_items pos g :
  state g = PLAYING ->
  Forall2 (follows pos) (items g) (items (handle_mouse_motion pos g)).
Proof.
  intros Hs. unfold handle_mouse_motion. rewrite Hs. destruct pos as [mx my].
  cbn [items set_items].
  induction (items g) as [|it l IH]; cbn [map]; constructor; [|exact IH].
  unfold follows. destruct (Item.dragging it) eqn:E; [|reflexivity].
  cbn. repeat split. exact E.
Qed.

(** A dragged item that [update] visits is left as it is. *)
Lemma Item_update_dragging gravity it :
  Item.dragging it = true -> Item.update gravity it = it.
Proof. intros H. unfold Item.update. now rewrite H. Qed.

(** The first block of [update] adds at most one item, at the end of the
    list, and that item is not dragged. *)
Lemma spawn_tick_items n r g :
  exists extra,
    items (spawn_tick n r g) = items g ++ extra /\
    Forall (fun it => Item.dragging it = false) extra.
Proof.
  unfold spawn_tick. destruct (n <=? _).
  - destruct (spawn_item_items r
                (set_frames_since_spawn 0
                   (set_frames_since_spawn (frames_since_spawn g + 1) g)))
      as (it & -> & Hit).
    exists [it]. split; [reflexivity | now constructor].
  - exists []. split; [cbn; now rewrite app_nil_r | constructor].
Qed.

Lemma update_keeps_dragged dt r g it :
  state g = PLAYING ->
  In it (items g) -> Item.dragging it = true -> fell_off it = false ->
  In it (items (update dt r g)).
Proof.
  intros Hs Hin Hd Hf.
  destruct (update_lives dt r g Hs) as (-> & _). unfold kept.
  destruct (spawn_tick_items (row_spawn_interval (LEVELS_at (level g))) r g)
    as (extra & -> & _).
  apply filter_In. split.
  - apply in_map_iff. exists it. split; [now apply Item_update_dragging|].
    apply in_or_app. now left.
  - now rewrite Hf.
Qed.


(** C6, as stated, fails for a click: the battery grabbed and let go with
    no pointer motion in between keeps, while dragged and after the release,
    the downward velocity it had before the grab, which is not zero. *)
Lemma drag_zeroes_velocity_counterexample :
  let g0 := run opening (init env0) in
  let g1 := handle_mouse_down (510, 0) g0 in
  let g2 := handle_mouse_up (510, 0) g1 in
  state g0 = PLAYING /\
  map Item.dragging (items g0) = [false] /\
  map Item.dragging (items g1) = [true] /\
  map Item.dragging (items g2) = [false] /\
  map Item.vy (items g1) = map Item.vy (items g0) /\
  map Item.vy (items g2) = map Item.vy (items g0) /\
  map (fun it => Qeq_bool (Item.vy it) 0) (items g2) = [false] /\
  map (fun it => Qeq_bool (Item.vy it) 0)
    (items (run (opening ++ [click_on_battery]) (init env0))) = [false].
Proof. vm_compute. repeat split. Qed.

(** C6, amended.  [Item.update] leaves a dragged item entirely as it is: no
    gravity, no change of position or rotation, and [update] keeps such an
    item in place as long as it is above the bottom threshold.  Every
    pointer-motion event handled while PLAYING sets the position of each
    dragged item to the pointer position plus the offset recorded by the
    grab and sets its velocity to zero, leaving all other items alone.  The
    grab records that offset and changes neither position nor velocity, and
    a release does not change the velocity either. *)
Theorem dragged_item_follows_pointer :
  (forall gravity it, Item.dragging it = true -> Item.update gravity it = it) /\
  (forall dt r g it,
     state g = PLAYING ->
     In it (items g) -> Item.dragging it = true -> fell_off it = false ->
     In it (items (update dt r g))) /\
  (forall pos g,
     state g = PLAYING ->
     Forall2 (follows pos) (items g) (items (handle_mouse_motion pos g))) /\
  (forall pos g, state g <> PLAYING -> handle_mouse_motion pos g = g) /\
  (forall pos g,
     state g = PLAYING ->
     Forall2 (grabbed_or_same pos) (items g) (items (handle_mouse_down pos g))) /\
  (forall pos g pre it post,
     state g = PLAYING ->
     split_dragged (items g) = Some (pre, it, post) ->
     find (overlaps it) (bins g) = None ->
     items (handle_mouse_up pos g) = pre ++ Item.set_dragging false it :: post /\
     Item.vx (Item.set_dragging false it) = Item.vx it /\
     Item.vy (Item.set_dragging false it) = Item.vy it).
Proof.
  split; [exact Item_update_dragging|].
  split; [exact update_keeps_dragged|].
  split; [exact handle_mouse_motion_items|].
  split; [|split; [exact handle_mouse_down_items|]].
  - intros pos g Hs. unfold handle_mouse_motion. destruct (state g); congruence.
  - intros pos g pre it post Hs Hd Hf.
    rewrite (handle_mouse_up_not_placed pos g pre it post Hs Hd Hf).
    repeat split.
Qed.

(** C6 at the battery grabbed at the top of the screen: a motion event
    puts it at the pointer plus the grab offset with zero velocity. *)
Lemma dragged_item_follows_pointer_witness :
  Forall2 (follows (300, 200)) (items grabbed_at_top)
    (items (handle_mouse_motion (300, 200) grabbed_at_top)) /\
  map (fun it => (Qeq_bool (Item.vx it) 0, Qeq_bool (Item.vy it) 0, Item.rect it))
    (items (handle_mouse_motion (300, 200) grabbed_at_top)) =
  [(true, true, Rect.mk 290 161 120 40)].
Proof.
  split.
  - apply (proj1 (proj2 (proj2 dragged_item_follows_pointer)) (300, 200) grabbed_at_top).
    reflexivity.
  - vm_compute. reflexivity.
Defined.

(** ** At most one dragged item? *)

Lemma count_dragging_app l1 l2 :
  count_dragging (l1 ++ l2) = (count_dragging l1 + count_dragging l2)%nat.
Proof. unfold count_dragging. now rewrite filter_app, length_app. Qed.

Lemma count_dragging_rev l : count_dragging (rev l) = count_dragging l.
Proof.
  induction l as [|it l IH]; [reflexivity|]. cbn [rev].
  rewrite count_dragging_app, IH. unfold count_dragging. cbn.
  destruct (Item.dragging it); cbn; lia.
Qed.

Lemma count_dragging_none l :
  Forall (fun a => Item.dragging a = false) l -> count_dragging l = O.
Proof.
  unfold count_dragging. induction 1 as [|a l Ha _ IH]; cbn; [reflexivity|].
  now rewrite Ha.
Qed.

Lemma count_dragging_cons it l :
  count_dragging (it :: l) =
  ((if Item.dragging it then 1 else 0) + count_dragging l)%nat.
Proof. unfold count_dragging. cbn. now destruct (Item.dragging it). Qed.

(** The scan of [handle_mouse_down] changes the first hit and nothing else. *)
Lemma grab_first_split pos l :
  (grab_first pos l = l /\
   Forall (fun a => Rect.collidepoint (Item.rect a) pos = false) l) \/
  (exists l1 it l2,
     l = l1 ++ it :: l2 /\ grab_first pos l = l1 ++ grab pos it :: l2 /\
     Rect.collidepoint (Item.rect it) pos = true /\
     Forall (fun a => Rect.collidepoint (Item.rect a) pos = false) l1).
Proof.
  induction l as [|a l IH]; cbn [grab_first].
  - left. split; [reflexivity | constructor].
  - destruct (Rect.collidepoint (Item.rect a) pos) eqn:E.
    + right. exists [], a, l. destruct pos as [mx my].
      repeat split; [assumption | constructor].
    + destruct IH as [[-> Hl] | (l1 & it & l2 & -> & -> & Hit & Hl)].
      * left. split; [reflexivity | now constructor].
      * right. exists (a :: l1), it, l2. repeat split; [assumption | now constructor].
Qed.

(** So [handle_mouse_down] grabs the hit item that is last in the list,
    the most recently spawned one, and no other. *)
Lemma handle_mouse_down_split pos g :
  state g = PLAYING ->
  (items (handle_mouse_down pos g) = items g /\
   Forall (fun a => Rect.collidepoint (Item.rect a) pos = false) (items g)) \/
  (exists l1 it l2,
     items g = l1 ++ it :: l2 /\
     items (handle_mouse_down pos g) = l1 ++ grab pos it :: l2 /\
     Rect.collidepoint (Item.rect it) pos = true /\
     Forall (fun a => Rect.collidepoint (Item.rect a) pos = false) l2).
Proof.
  intros Hs. unfold handle_mouse_down. rewrite Hs. cbn [items set_items].
  destruct (grab_first_split pos (rev (items g)))
    as [[-> Hl] | (l1 & it & l2 & Hr & -> & Hit & Hl)].
  - left. split; [apply rev_involutive|].
    apply Forall_rev in Hl. now rewrite rev_involutive in Hl.
  - right. exists (rev l2), it, (rev l1).
    assert (Hi : items g = rev l2 ++ it :: rev l1).
    { rewrite <- (rev_involutive (items g)), Hr, rev_app_distr. cbn [rev].
      now rewrite <- app_assoc. }
    split; [exact Hi|]. split.
    + rewrite rev_app_distr. cbn [rev]. now rewrite <- app_assoc.
    + split; [exact Hit|]. rewrite <- (rev_involutive l1) in Hl.
      apply Forall_rev in Hl. now rewrite rev_involutive in Hl.
Qed.

Lemma handle_mouse_down_count pos g :
  (count_dragging (items (handle_mouse_down pos g)) <= count_dragging (items g) + 1)%nat.
Proof.
  destruct (State_eqb (state g) PLAYING) eqn:E.
  - assert (Hs : state g = PLAYING) by (destruct (state g); (reflexivity || discriminate)).
    destruct (handle_mouse_down_split pos g Hs)
      as [[-> _] | (l1 & it & l2 & -> & -> & _)]; [lia|].
    rewrite !count_dragging_app, !count_dragging_cons. cbn.
    destruct (Item.dragging it); lia.
  - unfold handle_mouse_down. destruct (state g); try discriminate; lia.
Qed.

Lemma Item_eqb_dragging a b : Item.eqb a b = true -> Item.dragging a = Item.dragging b.
Proof.
  unfold Item.eqb. intros H.
  repeat (apply andb_prop in H; destruct H as [H ?]).
  now apply Bool.eqb_prop.
Qed.

Lemma handle_mouse_up_count pos g :
  state g = PLAYING ->
  count_dragging (items (handle_mouse_up pos g)) = Nat.pred (count_dragging (items g)).
Proof.
  intros Hs.
  destruct (split_dragged (items g)) as [[[pre it] post]|] eqn:Hd.
  - destruct (handle_mouse_up_cases pos g pre it post Hs Hd)
      as (Hi & Hdr & Hpre & H).
    rewrite Hi, count_dragging_app, count_dragging_cons, Hdr,
      (count_dragging_none _ Hpre). cbn [Nat.add Nat.pred].
    destruct (find (overlaps it) (bins g)).
    + destruct H as (_ & (l1 & r & l2 & Hl & Hr & _ & ->) & _).
      assert (Hc : count_dragging (pre ++ Item.set_dragging false it :: post) =
                   count_dragging post).
      { now rewrite count_dragging_app, count_dragging_cons, (count_dragging_none _ Hpre). }
      rewrite Hl, count_dragging_app, count_dragging_cons in Hc.
      rewrite (Item_eqb_dragging _ _ Hr) in Hc.
      cbn [Item.dragging Item.set_dragging] in Hc.
      rewrite count_dragging_app. lia.
    + destruct H as (_ & -> & _). cbn [items set_items].
      now rewrite count_dragging_app, count_dragging_cons, (count_dragging_none _ Hpre).
  - rewrite (handle_mouse_up_none_dragged pos g Hd).
    now rewrite (count_dragging_none _ (split_dragged_none _ Hd)).
Qed.

Lemma handle_mouse_motion_count pos g :
  count_dragging (items (handle_mouse_motion pos g)) = count_dragging (items g).
Proof.
  unfold handle_mouse_motion. destruct (state g); try reflexivity.
  destruct pos as [mx my]. cbn [items set_items].
  induction (items g) as [|it l IH]; [reflexivity|]. cbn [map].
  rewrite !count_dragging_cons, IH.
  destruct (Item.dragging it) eqn:E; cbn [Item.dragging Item.set_vy Item.set_vx
                                          Item.set_y Item.set_x]; now rewrite E.
Qed.

Lemma kept_count fs l : (count_dragging (kept fs l) <= count_dragging l)%nat.
Proof.
  unfold kept. induction l as [|it l IH]; [apply Nat.le_refl|]. cbn [map filter].
  assert (Hd : Item.dragging (Item.update fs it) = Item.dragging it).
  { unfold Item.update. destruct (Item.dragging it) eqn:E; cbn; first [exact E | reflexivity]. }
  destruct (negb (fell_off (Item.update fs it))); rewrite !count_dragging_cons, ?Hd;
    destruct (Item.dragging it); lia.
Qed.

Lemma update_count dt r g :
  (count_dragging (items (update dt r g)) <= count_dragging (items g))%nat.
Proof.
  destruct (State_eqb (state g) PLAYING) eqn:E.
  - assert (Hs : state g = PLAYING) by (destruct (state g); (reflexivity || discriminate)).
    destruct (update_lives dt r g Hs) as (-> & _).
    destruct (spawn_tick_items (row_spawn_interval (LEVELS_at (level g))) r g)
      as (extra & -> & Hex).
    etransitivity; [apply kept_count|].
    rewrite count_dragging_app, (count_dragging_none _ Hex). lia.
  - rewrite update_not_playing; [apply Nat.le_refl|].
    intros Hp. rewrite Hp in E. discriminate.
Qed.

Lemma handle_event_count ev running g :
  let g' := snd (handle_event ev (running, g)) in
  match ev with
  | MOUSEBUTTONDOWN _ _ =>
      (count_dragging (items g') <= count_dragging (items g) + 1)%nat
  | _ => (count_dragging (items g') <= count_dragging (items g))%nat
  end.
Proof.
  cbv zeta. destruct ev as [|key|button pos|button pos|pos|]; cbn [handle_event snd];
    try apply Nat.le_refl.
  - destruct key, (state g); cbn [snd]; try apply Nat.le_refl. cbn. lia.
  - destruct (button =? 1); cbn [snd]; [apply handle_mouse_down_count | lia].
  - destruct (button =? 1); cbn [snd]; [|apply Nat.le_refl].
    destruct (State_eqb (state g) PLAYING) eqn:E.
    + rewrite handle_mouse_up_count by (destruct (state g); (reflexivity || discriminate)).
      lia.
    + rewrite handle_mouse_up_not_playing; [apply Nat.le_refl|].
      intros Hp. rewrite Hp in E. discriminate.
  - rewrite handle_mouse_motion_count. apply Nat.le_refl.
Qed.

(** C9, as stated, fails.  In the session [two_dragged] every press of the
    button is followed by its release, but the first release arrives while
    the game is paused and is ignored; the grab after the resume then leaves
    two items dragged. *)
Lemma one_dragged_at_most_counterexample :
  reachable (run two_dragged (init env0)) /\
  state (run two_dragged (init env0)) = PLAYING /\
  map Item.dragging (items (run two_dragged (init env0))) = [true; true] /\
  count_dragging (items (run two_dragged (init env0))) = 2%nat /\
  map Item.dragging
    (items (run (opening ++ [grab_pause_release_resume]) (init env0))) = [true].
Proof.
  split; [apply run_reachable, reach_init|]. vm_compute. repeat split.
Qed.

(** C9, amended.  A grab while PLAYING sets the flag on at most one item,
    the hit item that is last in the list (the most recently spawned), and
    leaves every other item as it is; it raises the number of dragged items
    by at most one, so that from a state without a dragged item there is at
    most one afterwards.  A release handled while PLAYING lowers that
    number by one (clearing the flag of the first dragged item of the list);
    a release while the game is not PLAYING changes nothing.  No other
    event and no [update] raises the number of dragged items. *)
Theorem grab_adds_one_release_removes_one :
  (forall pos g,
     state g = PLAYING ->
     (items (handle_mouse_down pos g) = items g /\
      Forall (fun a => Rect.collidepoint (Item.rect a) pos = false) (items g)) \/
     (exists l1 it l2,
        items g = l1 ++ it :: l2 /\
        items (handle_mouse_down pos g) = l1 ++ grab pos it :: l2 /\
        Rect.collidepoint (Item.rect it) pos = true /\
        Forall (fun a => Rect.collidepoint (Item.rect a) pos = false) l2)) /\
  (forall pos g,
     (count_dragging (items (handle_mouse_down pos g)) <= count_dragging (items g) + 1)%nat /\
     (count_dragging (items g) = O ->
      (count_dragging (items (handle_mouse_down pos g)) <= 1)%nat)) /\
  (forall pos g,
     state g = PLAYING ->
     count_dragging (items (handle_mouse_up pos g)) = Nat.pred (count_dragging (items g))) /\
  (forall pos g, state g <> PLAYING -> handle_mouse_up pos g = g) /\
  (forall ev running g,
     let g' := snd (handle_event ev (running, g)) in
     match ev with
     | MOUSEBUTTONDOWN _ _ =>
         (count_dragging (items g') <= count_dragging (items g) + 1)%nat
     | _ => (count_dragging (items g') <= count_dragging (items g))%nat
     end) /\
  (forall dt r g,
     (count_dragging (items (update dt r g)) <= count_dragging (items g))%nat).
Proof.
  split; [exact handle_mouse_down_split|].
  split; [|split; [exact handle_mouse_up_count|split; [|split]]].
  - intros pos g. pose proof (handle_mouse_down_count pos g). split; lia.
  - exact handle_mouse_up_not_playing.
  - exact handle_event_count.
  - exact update_count.
Qed.

(** C9 at the opening of a session: the grab of the battery makes one
    dragged item, and its release while PLAYING leaves none. *)
Lemma grab_adds_one_release_removes_one_witness :
  count_dragging (items (handle_mouse_up (510, 0) grabbed_at_top)) = O.
Proof.
  rewrite (proj1 (proj2 (proj2 grab_adds_one_release_removes_one))
             (510, 0) grabbed_at_top eq_refl).
  reflexivity.
Defined.

(** ** The loop and the state machine *)

Lemma handle_event_running ev running g :
  fst (handle_event ev (running, g)) = running && negb (is_quit ev).
Proof.
  destruct ev as [|key|button pos|button pos|pos|]; cbn;
    rewrite ?andb_true_r, ?andb_false_r; try reflexivity.
  - destruct key, (state g); cbn; rewrite ?andb_true_r, ?andb_false_r; reflexivity.
  - now destruct (button =? 1).
  - now destruct (button =? 1).
Qed.

Lemma handle_event_game ev running running' g :
  snd (handle_event ev (running, g)) = snd (handle_event ev (running', g)).
Proof.
  destruct ev as [|key|button pos|button pos|pos|]; cbn; try reflexivity.
  - now destruct key, (state g).
  - now destruct (button =? 1).
  - now destruct (button =? 1).
Qed.

Lemma handle_events_running evs : forall running g,
  fst (handle_events evs (running, g)) = running && negb (existsb is_quit evs).
Proof.
  unfold handle_events.
  induction evs as [|ev evs IH]; intros running g; cbn [fold_left existsb].
  - now rewrite andb_true_r.
  - destruct (handle_event ev (running, g)) as [running' g'] eqn:E.
    rewrite IH. pose proof (handle_event_running ev running g) as H.
    rewrite E in H. cbn [fst] in H. rewrite H, negb_orb. now rewrite andb_assoc.
Qed.

Lemma handle_events_game evs : forall running running' g,
  snd (handle_events evs (running, g)) = snd (handle_events evs (running', g)).
Proof.
  unfold handle_events.
  induction evs as [|ev evs IH]; intros running running' g; cbn [fold_left]; [reflexivity|].
  pose proof (handle_event_game ev running running' g) as H.
  destruct (handle_event ev (running, g)) as [r1 g1].
  destruct (handle_event ev (running', g)) as [r2 g2].
  cbn [snd] in H. subst g2. apply IH.
Qed.

Lemma handle_event_not_quit ev running g :
  is_quit ev = true -> handle_event ev (running, g) = (false, g).
Proof. destruct ev as [|[]| | | |]; cbn; intros H; try discriminate; reflexivity. Qed.

Lemma handle_events_drop_quit evs : forall running g,
  snd (handle_events evs (running, g)) =
  snd (handle_events (filter (fun ev => negb (is_quit ev)) evs) (running, g)).
Proof.
  unfold handle_events.
  induction evs as [|ev evs IH]; intros running g; cbn [fold_left filter]; [reflexivity|].
  destruct (is_quit ev) eqn:E; cbn [negb fold_left].
  - rewrite (handle_event_not_quit ev running g E).
    fold (handle_events evs (false, g)).
    rewrite (handle_events_game evs false running g). apply IH.
  - destruct (handle_event ev (running, g)) as [r1 g1]. apply IH.
Qed.

(** The loop ends with the frame in which the window is closed or ESC is
    pressed: the frames after it are never run.  That frame itself is run
    in full: the events queued behind the closing one are still handled
    and the update still runs, so that the game it leaves is the one the
    frame would leave without the closing events. *)
Theorem quit_ends_after_the_frame f fs g :
  existsb is_quit (events f) = true ->
  run (f :: fs) g = snd (frame f g) /\
  snd (frame f g) =
  snd (frame (mkFrame (dt f) (filter (fun ev => negb (is_quit ev)) (events f)) (rand f)) g).
Proof.
  intros Hq. split.
  - cbn [run]. unfold frame.
    pose proof (handle_events_running (events f) true g) as Hr.
    unfold handle_events in Hr.
    destruct (fold_left _ (events f) (true, g)) as [running g1].
    cbn [fst] in Hr. rewrite Hq in Hr. cbn in Hr. subst running.
    now destruct (state g1).
  - unfold frame. cbn [events dt rand].
    pose proof (handle_events_drop_quit (events f) true g) as Hd.
    unfold handle_events in Hd.
    destruct (fold_left _ (events f) (true, g)) as [r1 g1].
    destruct (fold_left _ (filter _ (events f)) (true, g)) as [r2 g2].
    cbn [snd] in Hd. subst g2. now destruct (state g1).
Qed.

(** The window closed at the menu with SPACE queued behind: SPACE is
    still handled, the two frames that follow are not. *)
Lemma quit_ends_after_the_frame_witness :
  run (closing_frame :: [idle; idle]) (init env0) =
  snd (frame closing_frame (init env0)) /\
  state (snd (frame closing_frame (init env0))) = PLAYING.
Proof.
  split.
  - exact (proj1 (quit_ends_after_the_frame closing_frame [idle; idle] (init env0) eq_refl)).
  - reflexivity.
Defined.

Lemma handle_event_frozen ev running g :
  state g <> PLAYING -> is_keydown ev = false ->
  snd (handle_event ev (running, g)) = g.
Proof.
  intros Hs Hk. destruct ev as [|key|button pos|button pos|pos|]; cbn;
    try reflexivity; try discriminate.
  - destruct (button =? 1); cbn; [|reflexivity].
    unfold handle_mouse_down. destruct (state g); congruence.
  - destruct (button =? 1); cbn; [|reflexivity].
    now apply handle_mouse_up_not_playing.
  - unfold handle_mouse_motion. destruct pos. destruct (state g); congruence.
Qed.

(** While the game is at the menu, paused or over, nothing but a key
    press changes it: a frame whose events are pointer events only (or no
    events at all) leaves the game exactly as it was, whatever time has
    passed: no item moves, no timer runs, nothing is spawned. *)
Theorem only_keys_matter_when_not_playing f g :
  state g <> PLAYING ->
  existsb is_keydown (events f) = false ->
  snd (frame f g) = g.
Proof.
  intros Hs Hk.
  assert (H : snd (handle_events (events f) (true, g)) = g).
  { generalize true. revert Hk. unfold handle_events.
    induction (events f) as [|ev evs IH]; intros Hk running; cbn [fold_left]; [reflexivity|].
    cbn [existsb] in Hk. apply orb_false_elim in Hk. destruct Hk as [Hev Hevs].
    pose proof (handle_event_frozen ev running g Hs Hev) as He.
    destruct (handle_event ev (running, g)) as [r1 g1]. cbn [snd] in He. subst g1.
    now apply IH. }
  unfold frame. unfold handle_events in H.
  destruct (fold_left _ (events f) (true, g)) as [r1 g1]. cbn [snd] in H. subst g1.
  destruct (state g); try reflexivity. congruence.
Qed.

Lemma only_keys_matter_when_not_playing_witness :
  snd (frame (mkFrame 60%Q [MOUSEBUTTONDOWN 1 (510, 0); MOUSEMOTION (5, 5)] battery_draw)
         paused_mid_drag) = paused_mid_drag.
Proof.
  apply only_keys_matter_when_not_playing; [discriminate | reflexivity].
Defined.

(** P pauses a running game and P again resumes it, leaving exactly the
    game that was paused; likewise from the paused side; and M pressed
    twice leaves the game as it was. *)
Theorem pause_and_mute_toggle_back :
  (forall running g,
     state g = PLAYING \/ state g = PAUSE ->
     handle_event (KEYDOWN K_p) (handle_event (KEYDOWN K_p) (running, g)) = (running, g) /\
     state (snd (handle_event (KEYDOWN K_p) (running, g))) <> state g) /\
  (forall running g,
     handle_event (KEYDOWN K_m) (handle_event (KEYDOWN K_m) (running, g)) = (running, g) /\
     muted (snd (handle_event (KEYDOWN K_m) (running, g))) = negb (muted g)).
Proof.
  split.
  - intros running g [H | H]; destruct g; cbn in *; subst; cbn; split;
      (reflexivity || discriminate).
  - intros running g. destruct g; cbn. rewrite negb_involutive. split; reflexivity.
Qed.

Lemma pause_and_mute_toggle_back_witness :
  handle_event (KEYDOWN K_p) (handle_event (KEYDOWN K_p) (true, paused_mid_drag)) =
  (true, paused_mid_drag).
Proof.
  apply (proj1 pause_and_mute_toggle_back true paused_mid_drag). right. reflexivity.
Defined.

Lemma handle_mouse_up_state pos g :
  state (handle_mouse_up pos g) = state g \/
  (state g = PLAYING /\ state (handle_mouse_up pos g) = GAMEOVER).
Proof.
  destruct (State_eqb (state g) PLAYING) eqn:E.
  - assert (Hs : state g = PLAYING) by (destruct (state g); (reflexivity || discriminate)).
    destruct (split_dragged (items g)) as [[[pre it] post]|] eqn:Hd.
    + destruct (find (overlaps it) (bins g)) as [b|] eqn:Hf.
      * rewrite (handle_mouse_up_placed pos g pre it post b Hs Hd Hf). cbv zeta.
        destruct (String.eqb _ _).
        -- left. now destruct (register_hit_true_fields
                                 (drop_tip true (Item.set_dragging false it))
                                 (set_items
                                    (list_remove (Item.set_dragging false it)
                                       (pre ++ Item.set_dragging false it :: post)) g))
             as (_ & _ & _ & _ & -> & _).
        -- destruct (register_hit_false_fields
                       (drop_tip false (Item.set_dragging false it))
                       (set_items
                          (list_remove (Item.set_dragging false it)
                             (pre ++ Item.set_dragging false it :: post)) g))
             as (_ & _ & _ & _ & -> & _).
           cbn [lives set_items state]. destruct (_ <=? 0); [now right | now left].
      * rewrite (handle_mouse_up_not_placed pos g pre it post Hs Hd Hf). now left.
    + rewrite (handle_mouse_up_none_dragged pos g Hd). now left.
  - left. rewrite handle_mouse_up_not_playing; [reflexivity|].
    intros Hp. rewrite Hp in E. discriminate.
Qed.

Lemma update_state dt r g :
  state (update dt r g) = state g \/
  (state g = PLAYING /\ state (update dt r g) = GAMEOVER).
Proof.
  destruct (State_eqb (state g) PLAYING) eqn:E.
  - assert (Hs : state g = PLAYING) by (destruct (state g); (reflexivity || discriminate)).
    rewrite (update_playing _ _ _ Hs). unfold before_level_tick.
    set (fs := row_fall_speed (LEVELS_at (level g))).
    set (g1 := spawn_tick (row_spawn_interval (LEVELS_at (level g))) r g).
    rewrite update_items_spec by constructor.
    set (k := dropped fs (items g1)).
    set (g2 := set_items _ (misses k g1)).
    pose proof (level_tick_fields dt (tip_tick dt g2)) as (_ & _ & _ & _ & H).
    pose proof (tip_tick_fields dt g2) as (_ & _ & _ & _ & _ & H2 & _).
    pose proof (misses_state k g1) as Hm.
    pose proof (spawn_tick_fields (row_spawn_interval (LEVELS_at (level g))) r g)
      as (_ & _ & _ & _ & H1 & _).
    fold g1 in H1. subst g2. cbn [state set_items] in H2.
    destruct H as [H | H]; [right; split; assumption|]. rewrite H, H2.
    destruct Hm as [Hm | [Hm _]]; [right; split; assumption|].
    left. rewrite Hm. exact H1.
  - left. rewrite update_not_playing; [reflexivity|].
    intros Hp. rewrite Hp in E. discriminate.
Qed.

(** The state machine has five arrows and no other: MENU to PLAYING (SPACE),
    PLAYING to PAUSE and back (P), PLAYING to GAMEOVER (a pointer release
    or an update) and GAMEOVER to PLAYING (R).  Every event and every
    update either keeps the state or follows one of them, each arrow has
    the cause named here, and in particular no step leads back to MENU. *)
Theorem state_machine_arrows :
  (forall ev running g,
     let s := state g in
     let s' := state (snd (handle_event ev (running, g))) in
     s' = s \/
     (arrow s s' = true /\
      match s, s' with
      | MENU, PLAYING => ev = KEYDOWN K_SPACE
      | PLAYING, PAUSE | PAUSE, PLAYING => ev = KEYDOWN K_p
      | GAMEOVER, PLAYING => ev = KEYDOWN K_r
      | PLAYING, GAMEOVER => exists pos, ev = MOUSEBUTTONUP 1 pos
      | _, _ => False
      end)) /\
  (forall dt r g,
     state (update dt r g) = state g \/
     (state g = PLAYING /\ state (update dt r g) = GAMEOVER)).
Proof.
  split; [|exact update_state].
  intros ev running g. cbv zeta.
  destruct ev as [|key|button pos|button pos|pos|]; cbn [handle_event snd];
    try (now left).
  - destruct key, (state g) eqn:Hs; cbn [snd state set_state set_muted reset];
      rewrite ?Hs; try (now left); right; split; reflexivity.
  - destruct (button =? 1); cbn [snd]; [|now left]. left.
    now destruct (handle_mouse_down_fields pos g) as (_ & _ & _ & _ & -> & _).
  - destruct (button =? 1) eqn:Hb; cbn [snd]; [|now left].
    apply Z.eqb_eq in Hb. subst button.
    destruct (handle_mouse_up_state pos g) as [H | [H1 H2]]; [now left|].
    right. rewrite H1, H2. split; [reflexivity | now exists pos].
  - left. now destruct (handle_mouse_motion_fields pos g) as (_ & _ & _ & _ & -> & _).
Qed.
